(** * gpm_monitor: the report parser and the sampling loop

    A shallow embedding of [src/gpm_monitor.py]: the text primitives of
    Python that [GPMMonitor._parse_output] relies on, the parser itself, the
    CSV writer and the polling loop of [GPMMonitor.run], followed by the
    properties proved about them.

    Text is a [string] whose characters are code points below 256.  The
    interval in seconds and the sleep that ends a tick are computed in
    binary64, as Python's [float] does, from clock readings that are
    doubles; the clock readings of the duration test are the rationals they
    stand for.  What the loop meets outside itself (the running flag, the
    clock, the probe, the wall time of the timestamp, whether [time.sleep]
    returned) comes as a list of ticks, one per pass, and what it does
    outside itself is kept as a log.  Opening the sink and writing to it are
    taken to succeed. *)

From Stdlib Require Import Bool Arith ZArith NArith QArith Qpower Lia Lqa List.
From Stdlib Require Import Zpower SpecFloat.
From Stdlib Require Import Ascii String DecimalString.
Import ListNotations.

Open Scope string_scope.
Open Scope Z_scope.

(** ** Python's text primitives *)

Module Py.

(** Exceptions that the parser's [try] blocks deal with. *)
Inductive Exn : Type :=
| ValueError
| IndexError.

(** A computation that returns a value or raises. *)
Inductive outcome (A : Type) : Type :=
| Ok (a : A)
| Raise (e : Exn).
Arguments Ok {A} a.
Arguments Raise {A} e.

Definition bind {A B} (m : outcome A) (k : A -> outcome B) : outcome B :=
  match m with
  | Ok a => k a
  | Raise e => Raise e
  end.

Definition code (c : ascii) : N := N_of_ascii c.

(** [str.isspace] on one character (what [str.strip] and [str.split]
    treat as white space). *)
Definition isspace (c : ascii) : bool :=
  let n := code c in
  ((9 <=? n) && (n <=? 13) || (28 <=? n) && (n <=? 32)
   || (n =? 133) || (n =? 160))%N.

(** The decimal digits: [\d] of [re] and the digits of a float literal. *)
Definition isdecimal (c : ascii) : bool :=
  let n := code c in ((48 <=? n) && (n <=? 57))%N.

(** A digit for [str.isdigit]: decimal digits and the superscripts
    one, two and three. *)
Definition isdigit_char (c : ascii) : bool :=
  let n := code c in
  (isdecimal c || (n =? 178) || (n =? 179) || (n =? 185))%N.

Fixpoint all_chars (p : ascii -> bool) (s : string) : bool :=
  match s with
  | EmptyString => true
  | String c r => p c && all_chars p r
  end.

Definition is_empty (s : string) : bool :=
  match s with
  | EmptyString => true
  | String _ _ => false
  end.

(** [s.isdigit()] *)
Definition isdigit (s : string) : bool :=
  negb (is_empty s) && all_chars isdigit_char s.

Fixpoint lstrip_by (p : ascii -> bool) (s : string) : string :=
  match s with
  | EmptyString => EmptyString
  | String c r => if p c then lstrip_by p r else s
  end.

Fixpoint rstrip_by (p : ascii -> bool) (s : string) : string :=
  match s with
  | EmptyString => EmptyString
  | String c r =>
      let r' := rstrip_by p r in
      if p c && is_empty r' then EmptyString else String c r'
  end.

(** [s.strip()] *)
Definition strip (s : string) : string :=
  rstrip_by isspace (lstrip_by isspace s).

(** [s.split(sep)] for a separator of one character. *)
Fixpoint split_on (sep : ascii) (s : string) : list string :=
  match s with
  | EmptyString => [EmptyString]
  | String c r =>
      if Ascii.eqb c sep then EmptyString :: split_on sep r
      else match split_on sep r with
           | h :: t => String c h :: t
           | [] => [String c EmptyString]
           end
  end.

(** [s.split()]: the maximal runs of characters that are not white space. *)
Fixpoint split (s : string) : list string :=
  match s with
  | EmptyString => []
  | String c r =>
      if isspace c then split r
      else match r with
           | EmptyString => [String c EmptyString]
           | String c' _ =>
               if isspace c' then String c EmptyString :: split r
               else match split r with
                    | h :: t => String c h :: t
                    | [] => [String c EmptyString]
                    end
           end
  end.

(** [s.startswith(p)] *)
Definition startswith (s p : string) : bool := String.prefix p s.

(** [needle in s] *)
Fixpoint contains (needle s : string) : bool :=
  String.prefix needle s
  || match s with
     | EmptyString => false
     | String _ r => contains needle r
     end.

(** [sep.join(l)] *)
Definition join (sep : string) (l : list string) : string :=
  String.concat sep l.

(** [o or d] for an optional string. *)
Definition or_default (o : option string) (d : string) : string :=
  match o with
  | Some s => if is_empty s then d else s
  | None => d
  end.

Definition len {A} (l : list A) : Z := Z.of_nat (List.length l).

(** [l[i]], negative indices counting from the end. *)
Definition getitem (l : list string) (i : Z) : outcome string :=
  let j := if i <? 0 then i + len l else i in
  if (j <? 0) || (len l <=? j) then Raise IndexError
  else match nth_error l (Z.to_nat j) with
       | Some x => Ok x
       | None => Raise IndexError
       end.

(** [l[a:b]] for indices that are not negative. *)
Definition slice (l : list string) (a b : Z) : list string :=
  firstn (Z.to_nat (b - a)) (skipn (Z.to_nat a) l).

(** [l[a:]] *)
Definition slice_from (l : list string) (a : Z) : list string :=
  skipn (Z.to_nat a) l.

(** *** [float(s)]: which strings it accepts *)

(** The longest prefix of characters satisfying [p], and the rest. *)
Fixpoint span (p : ascii -> bool) (s : string) : string * string :=
  match s with
  | EmptyString => (EmptyString, EmptyString)
  | String c r =>
      if p c then let '(a, b) := span p r in (String c a, b)
      else (EmptyString, s)
  end.

Definition drop_sign (s : string) : string :=
  match s with
  | String c r => if Ascii.eqb c "+" || Ascii.eqb c "-" then r else s
  | EmptyString => s
  end.

Definition tolower (c : ascii) : ascii :=
  let n := code c in
  if ((65 <=? n) && (n <=? 90))%N then ascii_of_N (n + 32) else c.

Fixpoint lower (s : string) : string :=
  match s with
  | EmptyString => EmptyString
  | String c r => String (tolower c) (lower r)
  end.

(** An optional sign and [inf], [infinity] or [nan] in any case. *)
Definition inf_or_nan (s : string) : bool :=
  let w := lower (drop_sign s) in
  String.eqb w "inf" || String.eqb w "infinity" || String.eqb w "nan".

(** An optional sign, digits with an optional point (a digit on one side
    at least), and an optional exponent with its digits. *)
Definition decimal_literal (s : string) : bool :=
  let '(int_part, s1) := span isdecimal (drop_sign s) in
  let '(frac_part, s2) :=
    match s1 with
    | String "." r => span isdecimal r
    | _ => (EmptyString, s1)
    end in
  if is_empty int_part && is_empty frac_part then false
  else match s2 with
       | EmptyString => true
       | String c r =>
           if Ascii.eqb c "e" || Ascii.eqb c "E" then
             let '(exp_part, s3) := span isdecimal (drop_sign r) in
             negb (is_empty exp_part) && is_empty s3
           else false
       end.

(** Underscores are dropped when each stands between two digits;
    otherwise the text is refused. *)
Fixpoint drop_underscores (prev : ascii) (s : string) : option string :=
  match s with
  | EmptyString => if Ascii.eqb prev "_" then None else Some EmptyString
  | String c r =>
      if Ascii.eqb c "_" then
        if isdecimal prev then drop_underscores c r else None
      else if Ascii.eqb prev "_" && negb (isdecimal c) then None
      else option_map (String c) (drop_underscores c r)
  end.

(** White space of the C locale, stripped around a float literal. *)
Definition isspace_c (c : ascii) : bool :=
  let n := code c in (((9 <=? n) && (n <=? 13)) || (n =? 32))%N.

(** Characters beyond ASCII: white space becomes a blank, anything else
    (none is a decimal digit below 256) a question mark. *)
Definition to_ascii_char (c : ascii) : ascii :=
  if (code c <? 128)%N then c
  else if isspace c then " "%char else "?"%char.

Fixpoint to_ascii (s : string) : string :=
  match s with
  | EmptyString => EmptyString
  | String c r => String (to_ascii_char c) (to_ascii r)
  end.

Definition float_parses (s : string) : bool :=
  let t := rstrip_by isspace_c (lstrip_by isspace_c (to_ascii s)) in
  match drop_underscores "000"%char t with
  | None => false
  | Some u => decimal_literal u || inf_or_nan u
  end.

(** [float(s)], its value dropped: the parser only asks whether it raises. *)
Definition float (s : string) : outcome unit :=
  if float_parses s then Ok tt else Raise ValueError.

End Py.

Import Py.

Notation "x <- m ;; k" := (bind m (fun x => k))
  (at level 61, m at next level, right associativity).

(** The line feed, on which the report is cut into lines. *)
Definition LF : ascii := "010"%char.

(** ** The two patterns of the identity section *)

Module Re.

(** [s] without the prefix [p], when it starts with it. *)
Fixpoint after_prefix (p s : string) : option string :=
  match p, s with
  | EmptyString, _ => Some s
  | String a p', String b s' =>
      if Ascii.eqb a b then after_prefix p' s' else None
  | String _ _, EmptyString => None
  end.

(** [re.match(r'GPU (\d+): (.+)', line)]: the two groups.  The digits are
    the whole run (a colon has to follow it) and the dot takes every
    character up to a line feed, one at least. *)
Definition match_device (line : string) : option (string * string) :=
  match after_prefix "GPU " line with
  | None => None
  | Some r =>
      let '(digits, r1) := span isdecimal r in
      if is_empty digits then None
      else match after_prefix ": " r1 with
           | None => None
           | Some r2 =>
               let '(rest, _) := span (fun c => negb (Ascii.eqb c LF)) r2 in
               if is_empty rest then None else Some (digits, rest)
           end
  end.

(** [GI: (\d+), CI: (\d+)] tried at the start of [s]. *)
Definition partition_at (s : string) : option (string * string) :=
  match after_prefix "GI: " s with
  | None => None
  | Some r =>
      let '(gi, r1) := span isdecimal r in
      if is_empty gi then None
      else match after_prefix ", CI: " r1 with
           | None => None
           | Some r2 =>
               let '(ci, _) := span isdecimal r2 in
               if is_empty ci then None else Some (gi, ci)
           end
  end.

(** [re.search(r'GI: (\d+), CI: (\d+)', line)]: the leftmost position at
    which the pattern matches. *)
Fixpoint search_partition (line : string) : option (string * string) :=
  match partition_at line with
  | Some g => Some g
  | None =>
      match line with
      | EmptyString => None
      | String _ r => search_partition r
      end
  end.

End Re.

(** ** The data model *)

(** One entry of [metrics]: the dictionary with keys [id], [name], [value]
    and [unit]. *)
Record MetricReading : Type := mkReading {
  metric_id : string;
  metric_name : string;
  metric_value : string;
  metric_unit : string
}.

(** The dictionary that [_parse_output] returns. *)
Record Sample : Type := mkSample {
  device_id : string;
  device_name : string;
  gpu_instance_id : string;
  compute_instance_id : string;
  metrics : list MetricReading
}.

(** ** [GPMMonitor._parse_output] *)

(** [output.strip().split('\n')] *)
Definition lines_of (output : string) : list string :=
  split_on LF (strip output).

(** The four identity variables, [None] until a line sets them. *)
Record Identity : Type := mkIdentity {
  id_device_id : option string;
  id_device_name : option string;
  id_gpu_instance_id : option string;
  id_compute_instance_id : option string
}.

Definition no_identity : Identity := mkIdentity None None None None.

(** The body of the first loop, for one line. *)
Definition identity_step (st : Identity) (line : string) : Identity :=
  if startswith line "GPU " then
    match Re.match_device line with
    | Some (i, n) =>
        mkIdentity (Some i) (Some n)
                   (id_gpu_instance_id st) (id_compute_instance_id st)
    | None => st
    end
  else if contains "MIG Slice" line then
    match Re.search_partition line with
    | Some (gi, ci) =>
        mkIdentity (id_device_id st) (id_device_name st) (Some gi) (Some ci)
    | None => st
    end
  else st.

Definition find_identity (lines : list string) : Identity :=
  fold_left identity_step lines no_identity.

(** The inner loop over [enumerate(parts[1:], 1)]: the index of the first
    part that [float] accepts, [-1] when there is none.  Its handler goes on
    to the next part on a [ValueError] only. *)
Fixpoint find_value_idx (i : Z) (parts : list string) : outcome Z :=
  match parts with
  | [] => Ok (-1)
  | part :: rest =>
      match float part with
      | Ok _ => Ok i
      | Raise ValueError => find_value_idx (i + 1) rest
      | Raise e => Raise e
      end
  end.

(** The body of the [try] of one row: the reading to append, if any. *)
Definition row_body (parts : list string) : outcome (option MetricReading) :=
  m_id <- getitem parts 0 ;;
  value_idx <- find_value_idx 1 (slice_from parts 1) ;;
  if 0 <? value_idx then
    let m_name := join "_" (slice parts 1 value_idx) in
    m_value <- getitem parts value_idx ;;
    m_unit <- (if value_idx + 1 <? len parts
               then getitem parts (value_idx + 1) else Ok "") ;;
    m_status <- getitem parts (-1) ;;
    if String.eqb m_status "OK"
    then Ok (Some (mkReading m_id m_name m_value m_unit))
    else Ok None
  else Ok None.

(** [len(parts) >= 5 and parts[0].isdigit()] *)
Definition row_gate (parts : list string) : outcome bool :=
  if 5 <=? len parts then
    first <- getitem parts 0 ;; Ok (isdigit first)
  else Ok false.

(** A candidate row: the gate, then the [try] whose handler for
    [ValueError] and [IndexError] goes on to the next line. *)
Definition parse_row (line : string) : outcome (option MetricReading) :=
  let parts := split line in
  ok <- row_gate parts ;;
  if ok then
    match row_body parts with
    | Ok r => Ok r
    | Raise ValueError => Ok None
    | Raise IndexError => Ok None
    end
  else Ok None.

Definition is_header (line : string) : bool :=
  contains "ID" line && contains "Name" line && contains "Value" line.

Definition is_separator (line : string) : bool :=
  contains "-----" line.

(** The body of the second loop, for one line, on [(in_table, metrics)]. *)
Definition table_step (st : bool * list MetricReading) (line : string)
  : outcome (bool * list MetricReading) :=
  let '(in_table, metrics) := st in
  if is_header line then Ok (true, metrics)
  else if is_separator line then Ok st
  else if in_table && negb (is_empty (strip line)) then
    r <- parse_row line ;;
    match r with
    | Some m => Ok (in_table, (metrics ++ [m])%list)
    | None => Ok st
    end
  else Ok st.

Fixpoint table_loop (st : bool * list MetricReading) (lines : list string)
  : outcome (bool * list MetricReading) :=
  match lines with
  | [] => Ok st
  | line :: rest => st' <- table_step st line ;; table_loop st' rest
  end.

Definition _parse_output (output : string) : outcome Sample :=
  let lines := lines_of output in
  let ident := find_identity lines in
  st <- table_loop (false, []) lines ;;
  Ok (mkSample (or_default (id_device_id ident) "0")
               (or_default (id_device_name ident) "Unknown")
               (or_default (id_gpu_instance_id ident) "")
               (or_default (id_compute_instance_id ident) "")
               (snd st)).

(** ** Python's numbers *)

(** A [float] is a binary64 number of IEEE 754: 53 bits of precision and
    exponents below 1024.  An operation gives the double nearest to the
    exact result, the even one of two that are as near. *)
Definition double : Type := spec_float.

(** The double nearest to an integer, an infinity when the integer lies
    beyond all doubles. *)
Definition nearest_double (z : Z) : double :=
  binary_normalize 53 1024 z 0 false.

(** The conversion of an [int] that [int / float] starts with: it raises
    OverflowError, here [None], for an integer beyond all doubles. *)
Definition float_of_int (z : Z) : option double :=
  match nearest_double z with
  | S754_infinity _ => None
  | x => Some x
  end.

(** [x + y] *)
Definition float_add (x y : double) : double := SFadd 53 1024 x y.

(** [x - y] *)
Definition float_sub (x y : double) : double := SFsub 53 1024 x y.

(** [x / y], for a divisor that is not zero. *)
Definition float_div (x y : double) : double := SFdiv 53 1024 x y.

(** [x > 0]: false of a NaN and of the two zeros. *)
Definition float_pos (x : double) : bool := SFltb (S754_zero false) x.

(** [x < 0] *)
Definition float_neg (x : double) : bool := SFltb x (S754_zero false).

(** An [int] or a [float]: what [max(0, x)] returns. *)
Inductive number : Type :=
| Int (z : Z)
| Float (x : double).

(** [n > 0] *)
Definition gt_zero (n : number) : bool :=
  match n with
  | Int z => 0 <? z
  | Float x => float_pos x
  end.

(** [n < 0] *)
Definition lt_zero (n : number) : bool :=
  match n with
  | Int z => z <? 0
  | Float x => float_neg x
  end.

(** [max(0, x)]: the [int] it starts from, unless [x > 0]. *)
Definition max0 (x : double) : number := if float_pos x then Float x else Int 0.

(** The rational that a finite double stands for. *)
Definition float_value (x : double) : Q :=
  match x with
  | S754_finite s m e => (inject_Z (cond_Zopp s (Z.pos m)) * 2 ^ e)%Q
  | _ => 0%Q
  end.

(** [x <= y] and [x < y] as IEEE 754 orders doubles, by what they stand
    for: nothing compares with a NaN, and the zeros are equal. *)
Definition float_le (x y : double) : bool :=
  match x, y with
  | S754_nan, _ | _, S754_nan => false
  | S754_infinity sx, S754_infinity sy => sx || negb sy
  | S754_infinity sx, _ => sx
  | _, S754_infinity sy => negb sy
  | _, _ => Qle_bool (float_value x) (float_value y)
  end.

Definition float_lt (x y : double) : bool :=
  match x, y with
  | S754_nan, _ | _, S754_nan => false
  | S754_infinity sx, S754_infinity sy => sx && negb sy
  | S754_infinity sx, _ => sx
  | _, S754_infinity sy => negb sy
  | _, _ => negb (Qle_bool (float_value y) (float_value x))
  end.

(** The values of the type that are doubles: a mantissa of at most 53
    bits at the least exponent that holds it. *)
Definition is_double (x : double) : bool := valid_binary 53 1024 x.

(** The exponent of a finite double is no less than the least one. *)
Definition above_emin (x : double) : Prop :=
  match x with
  | S754_finite _ _ e => emin 53 1024 <= e
  | _ => True
  end.

(** ** The CSV writer *)

(** What the process does to the outside, in the order it does it. *)
Inductive Effect : Type :=
| Write (s : string)      (* out.write(s) *)
| Flush                   (* out.flush() *)
| Close                   (* out.close() *)
| Invoke                  (* subprocess.run([self.binary_path], ...) *)
| Sleep (seconds : number) (* time.sleep(seconds) *)
| Stderr (s : string)     (* sys.stderr.write(s) *)
| StderrFlush.            (* sys.stderr.flush() *)

Definition header_fst : string :=
  "timestamp,device_id,device_name,gpu_instance_id,compute_instance_id,".

Definition header_snd : string :=
  "metric_id,metric_name,value,unit" ++ String LF "".

Definition _write_csv_header (log : list Effect) : list Effect :=
  (log ++ [Write header_fst; Write header_snd; Flush])%list.

(** The three writes of one metric. *)
Definition row_writes (timestamp : string) (data : Sample) (m : MetricReading)
  : list Effect :=
  [ Write (timestamp ++ "," ++ device_id data ++ ","
           ++ device_name data ++ ",");
    Write (gpu_instance_id data ++ "," ++ compute_instance_id data ++ ",");
    Write (metric_id m ++ "," ++ metric_name m ++ "," ++ metric_value m
           ++ "," ++ metric_unit m ++ String LF "") ].

Definition _write_csv_row (log : list Effect) (timestamp : string)
  (data : Sample) : list Effect :=
  (log ++ flat_map (row_writes timestamp data) (metrics data) ++ [Flush])%list.

(** ** [GPMMonitor.run] *)

(** The attributes of the monitor that [__init__] sets and [run] reads. *)
Record Monitor : Type := mkMonitor {
  binary_path : string;
  interval_ms : Z;
  interval_sec : double;
  output_file : option string
}.

(** [interval_ms / 1000.0] for an interval that is a double already. *)
Definition seconds_of (ms : double) : double :=
  float_div ms (nearest_double 1000).

(** [GPMMonitor.__init__], as far as the attributes above go:
    [self.interval_sec = interval_ms / 1000.0] turns the interval into a
    double and divides it by the double 1000.  There is no monitor
    ([None], for OverflowError) when the interval is beyond all doubles. *)
Definition __init__ (binary_path : string) (interval_ms : Z)
  (output_file : option string) : option Monitor :=
  match float_of_int interval_ms with
  | Some ms => Some (mkMonitor binary_path interval_ms (seconds_of ms)
                               output_file)
  | None => None
  end.

(** What [subprocess.run] does in one tick. *)
Inductive ProbeResult : Type :=
| Completed (returncode : Z) (stdout stderr : string)
| TimeoutExpired
| FileNotFoundError
| OtherError.             (* any exception that [run] has no handler for *)

(** What [time.sleep] does when a tick calls it.  It raises for a time
    that its clock cannot hold (OverflowError, and OSError or ValueError
    close to the limit), from about 9.2e9 seconds on; where exactly lies in
    the interpreter and not in this program, so the tick tells which it
    was. *)
Inductive SleepResult : Type :=
| Slept
| SleepError.

(** What one pass through the loop observes of the outside, in the order
    the body asks for it. *)
Record Tick : Type := mkTick {
  tk_running : bool;      (* self.running, as the while test reads it *)
  tk_now : Q;             (* time.time() of the duration test *)
  tk_iter_start : double; (* time.time() assigned to iter_start *)
  tk_probe : ProbeResult;
  tk_timestamp : string;  (* datetime.now().isoformat() *)
  tk_end : double;        (* time.time() after the tick's work *)
  tk_sleep : SleepResult  (* time.sleep(sleep_time), if it is called *)
}.

Inductive Status : Type :=
| Running                 (* the loop is still going *)
| LimitReached            (* break: the duration limit *)
| Cancelled               (* self.running was False *)
| Failed                  (* break: the probe is missing or exited non-zero *)
| Crashed.                (* an exception leaves [run] *)

Record RunState : Type := mkRunState {
  log : list Effect;
  iteration : Z
}.

Definition str_of_Z (z : Z) : string := NilZero.string_of_int (Z.to_int z).

Definition say (st : RunState) (s : string) : RunState :=
  mkRunState (log st ++ [Stderr s]) (iteration st).

Definition NL : string := String LF "".
Definition CR : string := String "013"%char "".

(** [if duration_sec and (time.time() - start_time) >= duration_sec] *)
Definition limit_reached (duration_sec : option Z) (start_time now : Q)
  : bool :=
  match duration_sec with
  | None => false
  | Some d => negb (d =? 0) && Qle_bool (inject_Z d) (now - start_time)
  end.

(** [elapsed = time.time() - iter_start;
     sleep_time = max(0, self.interval_sec - elapsed)] *)
Definition sleep_time (self : Monitor) (iter_start now : double) : number :=
  let elapsed := float_sub now iter_start in
  max0 (float_sub (interval_sec self) elapsed).

(** How the loop stands after a call of [time.sleep]: an exception of it
    has no handler in [run]. *)
Definition sleep_status (r : SleepResult) : Status :=
  match r with
  | Slept => Running
  | SleepError => Crashed
  end.

(** The last four lines of the loop body. *)
Definition pause (self : Monitor) (env : Tick) (st : RunState)
  : Status * RunState :=
  let t := sleep_time self (tk_iter_start env) (tk_end env) in
  if gt_zero t
  then (sleep_status (tk_sleep env),
        mkRunState (log st ++ [Sleep t]) (iteration st))
  else (Running, st).

(** The branch [result.returncode == 0]. *)
Definition record_sample (env : Tick) (stdout : string) (st : RunState)
  : outcome RunState :=
  data <- _parse_output stdout ;;
  let timestamp := tk_timestamp env in
  let log1 := _write_csv_row (log st) timestamp data in
  let n := iteration st + 1 in
  if n mod 10 =? 0
  then Ok (mkRunState
             (log1 ++ [Stderr (CR ++ "Samples collected: " ++ str_of_Z n);
                       StderrFlush]) n)
  else Ok (mkRunState log1 n).

(** One pass through the loop: the while test and the body. *)
Definition tick (self : Monitor) (duration_sec : option Z) (start_time : Q)
  (env : Tick) (st : RunState) : Status * RunState :=
  if negb (tk_running env) then (Cancelled, st)
  else if limit_reached duration_sec start_time (tk_now env) then
    (LimitReached,
     say st (NL ++ "Reached duration limit of "
             ++ str_of_Z (match duration_sec with Some d => d | None => 0 end)
             ++ "s" ++ NL))
  else
    let st1 := mkRunState (log st ++ [Invoke]) (iteration st) in
    match tk_probe env with
    | Completed returncode stdout stderr =>
        if returncode =? 0 then
          match record_sample env stdout st1 with
          | Ok st2 => pause self env st2
          | Raise _ => (Crashed, st1)
          end
        else
          (Failed, say st1 (NL ++ "Error running " ++ binary_path self ++ ": "
                            ++ stderr ++ NL))
    | TimeoutExpired =>
        (Running, say st1 (NL ++ "Timeout running " ++ binary_path self ++ NL))
    | FileNotFoundError =>
        (Failed, say st1 (NL ++ "Binary not found: " ++ binary_path self ++ NL))
    | OtherError => (Crashed, st1)
    end.

(** The while loop over the ticks that the outside provides; [Running]
    comes back when they are used up with the loop still going. *)
Fixpoint loop (self : Monitor) (duration_sec : option Z) (start_time : Q)
  (script : list Tick) (st : RunState) : Status * RunState :=
  match script with
  | [] => (Running, st)
  | env :: rest =>
      match tick self duration_sec start_time env st with
      | (Running, st') => loop self duration_sec start_time rest st'
      | stopped => stopped
      end
  end.

(** [if self.output_file]: a name that is not empty. *)
Definition has_output_file (self : Monitor) : bool :=
  match output_file self with
  | Some f => negb (is_empty f)
  | None => false
  end.

(** The [finally] block. *)
Definition finally (self : Monitor) (st : RunState) : RunState :=
  let log1 :=
    if has_output_file self then (log st ++ [Close])%list else log st in
  say (mkRunState log1 (iteration st))
      (NL ++ NL ++ "Total samples collected: " ++ str_of_Z (iteration st)
       ++ NL).

(** What precedes the loop: the notice about the file, the header and the
    counter set to zero. *)
Definition start (self : Monitor) : RunState :=
  let log0 :=
    match output_file self with
    | Some f => if is_empty f then []
                else [Stderr ("Writing to " ++ f ++ NL)]
    | None => []
    end in
  mkRunState (_write_csv_header log0) 0.

Definition run (self : Monitor) (duration_sec : option Z) (start_time : Q)
  (script : list Tick) : Status * RunState :=
  match loop self duration_sec start_time script (start self) with
  | (Running, st) => (Running, st)
  | (stopped, st) => (stopped, finally self st)
  end.

(** ** Views of the code used in the statements *)

(** The identity that a line gives to the first loop, if any. *)
Definition device_of (line : string) : option (string * string) :=
  if startswith line "GPU " then Re.match_device line else None.

(** The partition identifiers that a line gives to the first loop, if any. *)
Definition partition_of (line : string) : option (string * string) :=
  if startswith line "GPU " then None
  else if contains "MIG Slice" line then Re.search_partition line
  else None.

(** The status column of a row: [parts[-1]]. *)
Definition status_of (line : string) : string := last (split line) "".


(** What was written to the sink, in order. *)
Fixpoint writes (l : list Effect) : list string :=
  match l with
  | [] => []
  | Write s :: r => s :: writes r
  | _ :: r => writes r
  end.

(** How many times the sink was flushed. *)
Fixpoint flushes (l : list Effect) : Z :=
  match l with
  | [] => 0
  | Flush :: r => 1 + flushes r
  | _ :: r => flushes r
  end.

(** How often the probe was started. *)
Fixpoint invocations (l : list Effect) : Z :=
  match l with
  | [] => 0
  | Invoke :: r => 1 + invocations r
  | _ :: r => invocations r
  end.

(** The closing notice of the [finally] block. *)
Definition total_notice (n : Z) : Effect :=
  Stderr (NL ++ NL ++ "Total samples collected: " ++ str_of_Z n ++ NL).

(** Every identity the loop holds came from a pattern: the identifiers are
    decimal digits and no captured text is empty. *)
Definition identity_ok (st : Identity) : Prop :=
  (forall i, id_device_id st = Some i ->
             is_empty i = false /\ all_chars isdecimal i = true) /\
  (forall n, id_device_name st = Some n -> is_empty n = false) /\
  (forall g, id_gpu_instance_id st = Some g ->
             is_empty g = false /\ all_chars isdecimal g = true) /\
  (forall c, id_compute_instance_id st = Some c ->
             is_empty c = false /\ all_chars isdecimal c = true).

(** A well-formed healthy row and the reading it stands for: the five
    columns of the table (id, name, value, unit, status) with a name of any
    number of words, the status [OK], and nothing that makes the line a
    header or a separator. *)
Definition healthy_row (line : string) (m : MetricReading) : Prop :=
  is_header line = false /\ is_separator line = false /\
  exists first names value rest,
    split line = first :: names ++ value :: rest /\
    isdigit first = true /\
    Forall (fun t => float_parses t = false) names /\
    float_parses value = true /\
    5 <= len (split line) /\
    last rest "" = "OK" /\
    m = mkReading first (join "_" names) value (hd "" rest).

(** Reports used as examples. *)
Definition report_short_row : string :=
  "ID Name Value Unit Status" ++ NL ++ "3 Power 42.5 OK".

Definition report_two_devices : string :=
  "GPU 0: Alpha" ++ NL ++ "GPU 1: Beta".

Definition report_full : string :=
  "GPU 0: NVIDIA H100" ++ NL ++
  "  MIG Slice  GI: 1, CI: 0" ++ NL ++
  "ID   Name          Value   Unit  Status" ++ NL ++
  "-------------------------------------" ++ NL ++
  "3    Power Usage   42.5    W     OK" ++ NL ++
  "4    broken row" ++ NL ++
  "6    Mem BW Util   0.5     %     OK" ++ NL.

Definition report_two_partitions : string :=
  "MIG Slice  GI: 1, CI: 0" ++ NL ++ "MIG Slice  GI: 2, CI: 3".

Definition report_no_identity : string :=
  "ID Name Value Unit Status" ++ NL ++ "3 Power Usage 42.5 W OK".

Definition report_unhealthy : string :=
  "GPU 0: NVIDIA H100" ++ NL ++
  "ID Name Value Unit Status" ++ NL ++
  "3 Power Usage 42.5 W ERR" ++ NL ++
  "5 SM Util 12 % N/A".

(** Does some character of [s] satisfy [p]? *)
Fixpoint any_char (p : ascii -> bool) (s : string) : bool :=
  match s with
  | EmptyString => false
  | String c r => p c || any_char p r
  end.

(** Does the first character of [s] satisfy [p]? *)
Definition head_char (p : ascii -> bool) (s : string) : bool :=
  match s with
  | EmptyString => false
  | String c _ => p c
  end.

(** What every write of [_write_csv_row] looks like and no part of the
    header does: it starts with a digit or a comma, or has a decimal digit
    somewhere. *)
Definition data_like (w : string) : bool :=
  head_char (fun c => isdigit_char c || Ascii.eqb c ",") w
  || any_char isdecimal w.

(** What the patterns and the row gate guarantee of a parsed sample. *)
Definition sample_ok (data : Sample) : Prop :=
  any_char isdecimal (device_id data) = true /\
  all_chars isdecimal (gpu_instance_id data) = true /\
  Forall (fun m => isdigit (metric_id m) = true) (metrics data).

(** The notice of the duration limit. *)
Definition limit_notice (d : Z) : string :=
  NL ++ "Reached duration limit of " ++ str_of_Z d ++ "s" ++ NL.

(** A monitor and ticks used as examples. *)
Definition monitor_1s : Monitor :=
  mkMonitor "./gpm_metrics_reader" 1000 (nearest_double 1) (Some "out.csv").

(** The double nearest to a quotient of two integers that are doubles. *)
Definition double_of_Q (q : Q) : double :=
  float_div (nearest_double (Qnum q)) (nearest_double (Z.pos (Qden q))).

(** A tick that starts at [now] and whose work takes a quarter of a
    second. *)
Definition tick_at (now : Q) (p : ProbeResult) : Tick :=
  mkTick true now (double_of_Q now) p "2026-01-01T00:00:00"
         (float_add (double_of_Q now) (double_of_Q (1 # 4))) Slept.

(** ** Further views of the parser and the writer *)

(** The readings that one line adds once the loop is inside the table. *)
Definition row_readings (line : string) : list MetricReading :=
  if is_header line || is_separator line then []
  else match parse_row line with
       | Ok (Some m) => [m]
       | _ => []
       end.

(** How often the character [c] occurs in [s]. *)
Fixpoint count_char (c : ascii) (s : string) : nat :=
  match s with
  | EmptyString => O
  | String a r => ((if Ascii.eqb a c then 1 else 0) + count_char c r)%nat
  end.

(** The text that the sink holds: the writes one after the other. *)
Definition sink_text (l : list Effect) : string :=
  String.concat "" (writes l).

(** A token as [str.split] gives it: not empty, no white space inside. *)
Definition is_token (t : string) : Prop :=
  is_empty t = false /\ any_char isspace t = false.

(** The shape of a reading that the table loop appends. *)
Definition reading_shape (m : MetricReading) : Prop :=
  isdigit (metric_id m) = true /\
  float_parses (metric_value m) = true /\
  is_empty (metric_unit m) = false /\
  any_char isspace (metric_id m) = false /\
  any_char isspace (metric_name m) = false /\
  any_char isspace (metric_value m) = false /\
  any_char isspace (metric_unit m) = false.

(** What the identity loop keeps beyond [identity_ok]: a device name holds
    no line feed, and the two partition identifiers are set together. *)
Definition identity_paired (st : Identity) : Prop :=
  (forall n, id_device_name st = Some n ->
             any_char (fun c => Ascii.eqb c LF) n = false) /\
  (id_gpu_instance_id st = None <-> id_compute_instance_id st = None).

(** ** Further views of the loop *)

(** The progress notice after the [n]-th sample, every tenth time. *)
Definition progress_of (n : Z) : list Effect :=
  if n mod 10 =? 0
  then [Stderr (CR ++ "Samples collected: " ++ str_of_Z n); StderrFlush]
  else [].

(** The sleep that ends a tick, when there is time left to sleep. *)
Definition pause_of (self : Monitor) (env : Tick) : list Effect :=
  let t := sleep_time self (tk_iter_start env) (tk_end env) in
  if gt_zero t then [Sleep t] else [].

(** How the loop stands after the end of a tick that wrote its sample. *)
Definition pause_status (self : Monitor) (env : Tick) : Status :=
  if gt_zero (sleep_time self (tk_iter_start env) (tk_end env))
  then sleep_status (tk_sleep env)
  else Running.

(** [n] is what a tick that took less than the interval leaves of it:
    the double above zero that the two subtractions give. *)
Definition is_remainder (self : Monitor) (env : Tick) (n : number) : Prop :=
  let elapsed := float_sub (tk_end env) (tk_iter_start env) in
  let rest := float_sub (interval_sec self) elapsed in
  n = Float rest /\ float_pos rest = true /\
  float_lt elapsed (interval_sec self) = true.

(** How many effects of a kind the log holds. *)
Definition count_effects (p : Effect -> bool) (l : list Effect) : Z :=
  Z.of_nat (List.length (filter p l)).

Definition is_close (e : Effect) : bool :=
  match e with Close => true | _ => false end.

Definition is_stderr_flush (e : Effect) : bool :=
  match e with StderrFlush => true | _ => false end.

Definition is_sleep (e : Effect) : bool :=
  match e with Sleep _ => true | _ => false end.

(** What [time.sleep] was given, call by call. *)
Fixpoint sleeps (l : list Effect) : list number :=
  match l with
  | [] => []
  | Sleep q :: r => q :: sleeps r
  | _ :: r => sleeps r
  end.

(** What was written to the sink since it was last flushed, [acc] being
    what was pending before. *)
Fixpoint pending_from (acc : list string) (l : list Effect) : list string :=
  match l with
  | [] => acc
  | Write s :: r => pending_from (acc ++ [s]) r
  | Flush :: r => pending_from [] r
  | _ :: r => pending_from acc r
  end.

Definition pending (l : list Effect) : list string := pending_from [] l.

(** The cases of a tick, each with what it appends to the log. *)
Inductive tick_case (self : Monitor) (duration_sec : option Z)
  (start_time : Q) (env : Tick) (st : RunState)
  : Status -> list Effect -> Z -> Prop :=
| case_cancelled :
    tk_running env = false ->
    tick_case self duration_sec start_time env st Cancelled [] (iteration st)
| case_limit (s : string) :
    tk_running env = true ->
    limit_reached duration_sec start_time (tk_now env) = true ->
    tick_case self duration_sec start_time env st LimitReached [Stderr s] (iteration st)
| case_sample (stdout stderr : string) (data : Sample) :
    tk_running env = true ->
    limit_reached duration_sec start_time (tk_now env) = false ->
    tk_probe env = Completed 0 stdout stderr ->
    _parse_output stdout = Ok data ->
    tick_case self duration_sec start_time env st (pause_status self env)
      (Invoke
       :: flat_map (row_writes (tk_timestamp env) data) (metrics data)
       ++ [Flush] ++ progress_of (iteration st + 1) ++ pause_of self env)
      (iteration st + 1)
| case_exit (returncode : Z) (stdout stderr s : string) :
    tk_running env = true ->
    limit_reached duration_sec start_time (tk_now env) = false ->
    tk_probe env = Completed returncode stdout stderr ->
    returncode <> 0 ->
    tick_case self duration_sec start_time env st Failed [Invoke; Stderr s] (iteration st)
| case_timeout (s : string) :
    tk_running env = true ->
    limit_reached duration_sec start_time (tk_now env) = false ->
    tk_probe env = TimeoutExpired ->
    tick_case self duration_sec start_time env st Running [Invoke; Stderr s] (iteration st)
| case_not_found (s : string) :
    tk_running env = true ->
    limit_reached duration_sec start_time (tk_now env) = false ->
    tk_probe env = FileNotFoundError ->
    tick_case self duration_sec start_time env st Failed [Invoke; Stderr s] (iteration st)
| case_other :
    tk_running env = true ->
    limit_reached duration_sec start_time (tk_now env) = false ->
    tk_probe env = OtherError ->
    tick_case self duration_sec start_time env st Crashed [Invoke] (iteration st).


(** What the [finally] block appends once the loop has ended with the
    counter at [n]. *)
Definition closing_of (self : Monitor) (status : Status) (n : Z)
  : list Effect :=
  match status with
  | Running => []
  | _ => ((if has_output_file self then [Close] else [])
          ++ [total_notice n])%list
  end.

(** ** [main], from the parsed arguments on *)

(** The arguments as [argparse] hands them over: [--interval] (an int,
    1000 by default), [--duration] (an int or [None]), [--output] (a
    string, required) and [--binary] (a string). *)
Record Args : Type := mkArgs {
  arg_interval : Z;
  arg_duration : option Z;
  arg_output : string;
  arg_binary : string
}.




(** [GPMMonitor(args.binary, args.interval, args.output)], for an interval
    that has a double. *)
Definition monitor_of (args : Args) : Monitor :=
  mkMonitor (arg_binary args) (arg_interval args)
            (seconds_of (nearest_double (arg_interval args)))
            (Some (arg_output args)).


(** Closes the side conditions of a step that writes nothing to the sink. *)
Ltac no_data_written :=
  cbn [snd say log iteration writes flushes app];
  repeat split; first [apply Forall_nil | lia | reflexivity].

(** * Properties *)

(** ** Lists and indexing *)

Lemma len_nonneg {A} (l : list A) : 0 <= len l.
Proof. unfold len. lia. Qed.

Lemma len_cons {A} (x : A) (l : list A) : len (x :: l) = 1 + len l.
Proof. unfold len. cbn [List.length]. lia. Qed.

Lemma len_app {A} (l1 l2 : list A) : len (l1 ++ l2) = len l1 + len l2.
Proof. unfold len. rewrite length_app. lia. Qed.

Lemma getitem_in_range (l : list string) (i : Z) :
  0 <= i < len l -> getitem l i = Ok (nth (Z.to_nat i) l "").
Proof.
  intros Hi. unfold getitem.
  destruct (Z.ltb_spec i 0) as [Hneg | _]; [lia |].
  destruct (Z.ltb_spec i 0) as [Hneg | _]; [lia |].
  destruct (Z.leb_spec (len l) i) as [Hbig | _]; [lia |].
  cbn [orb].
  destruct (nth_error l (Z.to_nat i)) as [x |] eqn:E.
  - now rewrite (nth_error_nth _ _ _ E).
  - apply nth_error_None in E. unfold len in Hi. lia.
Qed.

Lemma getitem_last (l : list string) :
  l <> [] -> getitem l (-1) = Ok (last l "").
Proof.
  intros Hne. unfold getitem.
  assert (Hlen : 0 < len l).
  { destruct l; [congruence | rewrite len_cons; pose proof (len_nonneg l); lia]. }
  change (-1 <? 0) with true. cbv iota.
  destruct (Z.ltb_spec (-1 + len l) 0) as [Hneg | _]; [lia |].
  destruct (Z.leb_spec (len l) (-1 + len l)) as [Hbig | _]; [lia |].
  cbn [orb].
  destruct (nth_error l (Z.to_nat (-1 + len l))) as [x |] eqn:E.
  - f_equal. rewrite <- (nth_error_nth _ _ "" E).
    replace (Z.to_nat (-1 + len l)) with (List.length l - 1)%nat
      by (unfold len; lia).
    symmetry. destruct (exists_last Hne) as [l' [a ->]].
    rewrite last_last, length_app, app_nth2; cbn [List.length]; [| lia].
    now replace (List.length l' + 1 - 1 - List.length l')%nat with 0%nat by lia.
  - apply nth_error_None in E. unfold len in *. lia.
Qed.

(** ** The value boundary *)

Lemma float_raises (t : string) :
  float_parses t = false -> float t = Raise ValueError.
Proof. unfold float. now intros ->. Qed.

Lemma float_returns (t : string) : float_parses t = true -> float t = Ok tt.
Proof. unfold float. now intros ->. Qed.

Lemma find_value_idx_total (ps : list string) (i : Z) :
  exists k, find_value_idx i ps = Ok k.
Proof.
  revert i. induction ps as [| p ps IH]; intros i; cbn [find_value_idx].
  - eauto.
  - unfold float. destruct (float_parses p); [eauto | apply IH].
Qed.

Lemma find_value_idx_skip (names rest : list string) (i : Z) :
  Forall (fun t => float_parses t = false) names ->
  find_value_idx i (names ++ rest) = find_value_idx (i + len names) rest.
Proof.
  intros H. revert i. induction H as [| t names Ht _ IH]; intros i.
  - cbn [app]. f_equal. unfold len. cbn. lia.
  - cbn [app find_value_idx]. rewrite (float_raises _ Ht), IH.
    f_equal. rewrite len_cons. lia.
Qed.

Lemma find_value_idx_hit (v : string) (rest : list string) (i : Z) :
  float_parses v = true -> find_value_idx i (v :: rest) = Ok i.
Proof. intros Hv. cbn [find_value_idx]. now rewrite (float_returns _ Hv). Qed.


(** ** One row *)

Lemma row_gate_total (parts : list string) : exists b, row_gate parts = Ok b.
Proof.
  unfold row_gate. destruct (Z.leb_spec 5 (len parts)) as [H5 | H5].
  - rewrite getitem_in_range by lia. cbn [bind]. eauto.
  - eauto.
Qed.

Lemma row_gate_true (parts : list string) :
  row_gate parts = Ok true ->
  5 <= len parts /\ exists first others,
    parts = first :: others /\ isdigit first = true.
Proof.
  unfold row_gate. destruct (Z.leb_spec 5 (len parts)) as [H5 | H5];
    [| discriminate].
  rewrite getitem_in_range by lia. cbn [bind]. intros [= Hd].
  split; [assumption |].
  destruct parts as [| first others]; [unfold len in H5; cbn in H5; lia |].
  now exists first, others.
Qed.

Lemma parse_row_total (line : string) : exists r, parse_row line = Ok r.
Proof.
  unfold parse_row. destruct (row_gate_total (split line)) as [b ->].
  cbn [bind]. destruct b; [| eauto].
  destruct (row_body (split line)) as [r | []]; eauto.
Qed.

(** The status of a row that gives a reading. *)
Lemma row_body_status (parts : list string) (m : MetricReading) :
  row_body parts = Ok (Some m) -> last parts "" = "OK".
Proof.
  unfold row_body. destruct parts as [| p0 ps].
  - cbn. discriminate.
  - rewrite getitem_in_range
      by (rewrite len_cons; pose proof (len_nonneg ps); lia).
    cbn [bind]. destruct (find_value_idx _ _) as [k |]; [| discriminate].
    cbn [bind]. destruct (0 <? _); [| discriminate].
    destruct (getitem (p0 :: ps) _) as [v |]; [| discriminate]. cbn [bind].
    destruct (if _ <? _ then _ else _) as [u |]; [| discriminate].
    cbn [bind]. rewrite getitem_last by discriminate. cbn [bind].
    destruct (String.eqb_spec (last (p0 :: ps) "") "OK") as [E | E];
      [trivial | discriminate].
Qed.

Lemma parse_row_status (line : string) (m : MetricReading) :
  parse_row line = Ok (Some m) -> status_of line = "OK".
Proof.
  unfold parse_row, status_of.
  destruct (row_gate (split line)) as [[] |]; cbn [bind]; try discriminate.
  destruct (row_body (split line)) as [r | []] eqn:E; try discriminate.
  intros [= ->]. now apply row_body_status with m.
Qed.

(** A row of the form [id names... value rest...] with at least one token
    after the value. *)
Lemma row_body_shape (first value : string) (names rest : list string) :
  Forall (fun t => float_parses t = false) names ->
  float_parses value = true ->
  rest <> [] ->
  row_body (first :: names ++ value :: rest) =
  Ok (if String.eqb (last rest "") "OK"
      then Some (mkReading first (join "_" names) value (hd "" rest))
      else None).
Proof.
  intros Hnames Hvalue Hrest. unfold row_body.
  set (parts := first :: names ++ value :: rest).
  assert (Hlen : len parts = 2 + len names + len rest).
  { unfold parts. rewrite len_cons, len_app, len_cons. lia. }
  assert (Hrest_len : 0 < len rest).
  { destruct rest; [congruence |].
    rewrite len_cons. pose proof (len_nonneg rest). lia. }
  pose proof (len_nonneg names) as Hn.
  rewrite getitem_in_range by lia. cbn [bind].
  change (nth (Z.to_nat 0) parts "") with first.
  assert (Hidx : find_value_idx 1 (slice_from parts 1)
                 = Ok (1 + len names)).
  { unfold slice_from, parts. change (Z.to_nat 1) with 1%nat. cbn [skipn].
    now rewrite (find_value_idx_skip _ _ _ Hnames), find_value_idx_hit. }
  rewrite Hidx. cbn [bind].
  destruct (Z.ltb_spec 0 (1 + len names)) as [_ | Hbad]; [| lia].
  rewrite getitem_in_range by lia. cbn [bind].
  destruct (Z.ltb_spec (1 + len names + 1) (len parts)) as [_ | Hbad];
    [| lia].
  rewrite getitem_in_range by lia. cbn [bind].
  rewrite getitem_last by (unfold parts; discriminate). cbn [bind].
  assert (Hslice : slice parts 1 (1 + len names) = names).
  { unfold slice, parts. change (Z.to_nat 1) with 1%nat. cbn [skipn].
    replace (Z.to_nat (1 + len names - 1)) with (List.length names + 0)%nat
      by (unfold len; lia).
    rewrite firstn_app_2. cbn [firstn]. apply app_nil_r. }
  assert (Hval : nth (Z.to_nat (1 + len names)) parts "" = value).
  { unfold parts.
    replace (Z.to_nat (1 + len names)) with (S (List.length names))
      by (unfold len; lia).
    cbn [nth]. rewrite app_nth2 by lia.
    now replace (List.length names - List.length names)%nat with 0%nat by lia. }
  assert (Hunit : nth (Z.to_nat (1 + len names + 1)) parts "" = hd "" rest).
  { unfold parts.
    replace (Z.to_nat (1 + len names + 1)) with (S (List.length names + 1))
      by (unfold len; lia).
    cbn [nth]. rewrite app_nth2 by lia.
    replace (List.length names + 1 - List.length names)%nat with 1%nat by lia.
    cbn [nth]. now destruct rest. }
  assert (Hlast : last parts "" = last rest "").
  { unfold parts.
    replace (first :: names ++ value :: rest)
      with ((first :: names ++ [value]) ++ rest)%list
      by (cbn [app]; now rewrite <- app_assoc).
    destruct (exists_last Hrest) as [r' [a ->]].
    now rewrite app_assoc, !last_last. }
  rewrite Hslice, Hval, Hunit, Hlast.
  now destruct (String.eqb (last rest "") "OK").
Qed.

(** ** The table loop *)

Lemma table_step_total (st : bool * list MetricReading) (line : string) :
  exists st', table_step st line = Ok st'.
Proof.
  unfold table_step. destruct st as [in_table ms].
  destruct (is_header line); [eauto |].
  destruct (is_separator line); [eauto |].
  destruct (in_table && _); [| eauto].
  destruct (parse_row_total line) as [r ->]. cbn [bind].
  destruct r; eauto.
Qed.

(** What one line does to the pair: the flag it leaves and the readings
    it adds, whatever was collected before. *)
Lemma table_step_adds (in_table : bool) (line : string) :
  exists in_table' new,
    (forall ms, table_step (in_table, ms) line
                = Ok (in_table', (ms ++ new)%list)) /\
    (new = [] \/
     exists m, new = [m] /\ in_table = true /\ is_header line = false /\
               is_separator line = false /\ parse_row line = Ok (Some m)).
Proof.
  unfold table_step.
  destruct (is_header line) eqn:Hh.
  { exists true, []. split; [intros ms; now rewrite app_nil_r | now left]. }
  destruct (is_separator line) eqn:Hs.
  { exists in_table, []. split; [intros ms; now rewrite app_nil_r | now left]. }
  destruct in_table; cbn [andb].
  - destruct (negb (is_empty (strip line))).
    + destruct (parse_row_total line) as [[m |] Hr]; rewrite Hr; cbn [bind].
      * exists true, [m]. split; [reflexivity |]. right. now exists m.
      * exists true, []. split; [intros ms; now rewrite app_nil_r | now left].
    + exists true, []. split; [intros ms; now rewrite app_nil_r | now left].
  - exists false, []. split; [intros ms; now rewrite app_nil_r | now left].
Qed.

Lemma table_loop_app (l1 l2 : list string) (st : bool * list MetricReading) :
  table_loop st (l1 ++ l2) = (st' <- table_loop st l1 ;; table_loop st' l2).
Proof.
  revert st. induction l1 as [| line l1 IH]; intros st; [reflexivity |].
  cbn [app table_loop].
  destruct (table_step st line) as [st' |]; cbn [bind]; [apply IH | reflexivity].
Qed.

(** The loop never raises; what it collects is appended to what it was
    given, and each new reading is the reading of one of the lines. *)
Lemma table_loop_adds (lines : list string) (in_table : bool) :
  exists in_table' new,
    (forall ms, table_loop (in_table, ms) lines
                = Ok (in_table', (ms ++ new)%list)) /\
    Forall (fun m => exists line,
                In line lines /\ parse_row line = Ok (Some m)) new.
Proof.
  revert in_table. induction lines as [| line lines IH]; intros in_table.
  - exists in_table, []. split; [intros ms; cbn; now rewrite app_nil_r |].
    constructor.
  - destruct (table_step_adds in_table line) as [b1 [new1 [H1 Hnew1]]].
    destruct (IH b1) as [b2 [new2 [H2 Hnew2]]].
    exists b2, (new1 ++ new2)%list. split.
    + intros ms. cbn [table_loop]. rewrite H1. cbn [bind].
      rewrite H2. now rewrite app_assoc.
    + apply Forall_app. split.
      * destruct Hnew1 as [-> | [m [-> [_ [_ [_ Hm]]]]]]; constructor;
          [| constructor].
        exists line. split; [now left | assumption].
      * eapply Forall_impl; [| exact Hnew2].
        intros m [l [Hin Hm]]. exists l. split; [now right | assumption].
Qed.

(** Before the header is seen no line adds a reading. *)
Lemma table_loop_before_header (lines : list string)
  (ms : list MetricReading) :
  Forall (fun l => is_header l = false) lines ->
  table_loop (false, ms) lines = Ok (false, ms).
Proof.
  induction 1 as [| line lines Hl _ IH]; [reflexivity |].
  cbn [table_loop]. unfold table_step. rewrite Hl.
  destruct (is_separator line); cbn [andb bind]; exact IH.
Qed.

(** Once inside the table the flag stays. *)
Lemma table_step_keeps_flag (line : string) (ms : list MetricReading)
  (st' : bool * list MetricReading) :
  table_step (true, ms) line = Ok st' -> fst st' = true.
Proof.
  unfold table_step.
  destruct (is_header line); [now intros [= <-] |].
  destruct (is_separator line); [now intros [= <-] |].
  destruct (true && _); [| now intros [= <-]].
  destruct (parse_row line) as [[m |] |]; cbn [bind];
    try discriminate; now intros [= <-].
Qed.

Lemma table_loop_keeps_flag (lines : list string) (ms : list MetricReading)
  (st' : bool * list MetricReading) :
  table_loop (true, ms) lines = Ok st' -> fst st' = true.
Proof.
  revert ms. induction lines as [| line lines IH]; intros ms.
  - now intros [= <-].
  - cbn [table_loop].
    destruct (table_step (true, ms) line) as [[b ms1] |] eqn:E; cbn [bind];
      [| discriminate].
    apply table_step_keeps_flag in E. cbn in E. subst b. apply IH.
Qed.

(** A header among the lines read so far puts the loop inside the table. *)
Lemma table_loop_after_header (lines : list string) (in_table : bool)
  (ms : list MetricReading) (st' : bool * list MetricReading) :
  Exists (fun l => is_header l = true) lines ->
  table_loop (in_table, ms) lines = Ok st' -> fst st' = true.
Proof.
  intros Hex. revert in_table ms.
  induction Hex as [line lines Hh | line lines _ IH]; intros in_table ms.
  - cbn [table_loop]. unfold table_step. rewrite Hh. cbn [bind].
    apply table_loop_keeps_flag.
  - cbn [table_loop].
    destruct (table_step (in_table, ms) line) as [[b ms1] |]; cbn [bind];
      [apply IH | discriminate].
Qed.

(** The parser as a whole: it returns, and its readings are those the
    table loop collects from nothing. *)
Lemma parse_output_returns (output : string) :
  exists in_table' ms,
    table_loop (false, []) (lines_of output) = Ok (in_table', ms) /\
    _parse_output output =
    Ok (mkSample
          (or_default (id_device_id (find_identity (lines_of output))) "0")
          (or_default (id_device_name (find_identity (lines_of output)))
                      "Unknown")
          (or_default (id_gpu_instance_id (find_identity (lines_of output)))
                      "")
          (or_default
             (id_compute_instance_id (find_identity (lines_of output))) "")
          ms).
Proof.
  destruct (table_loop_adds (lines_of output) false) as [b [new [H _]]].
  exists b, new. specialize (H []). cbn [app] in H.
  split; [assumption |].
  unfold _parse_output. cbv zeta. now rewrite H.
Qed.

(** ** The identity loop *)

Lemma span_all (p : ascii -> bool) (s : string) :
  all_chars p (fst (span p s)) = true.
Proof.
  induction s as [| c r IH]; [reflexivity |].
  cbn [span]. destruct (p c) eqn:Hc; [| reflexivity].
  destruct (span p r) as [a b]. cbn [fst all_chars] in *. now rewrite Hc.
Qed.

(** Both groups of the device pattern are non-empty and the first is made
    of decimal digits. *)
Lemma match_device_groups (line i n : string) :
  Re.match_device line = Some (i, n) ->
  is_empty i = false /\ all_chars isdecimal i = true /\ is_empty n = false.
Proof.
  unfold Re.match_device.
  destruct (Re.after_prefix "GPU " line) as [r |]; [| discriminate].
  pose proof (span_all isdecimal r) as Hall.
  destruct (span isdecimal r) as [digits r1]. cbn [fst] in Hall.
  destruct (is_empty digits) eqn:Hd; [discriminate |].
  destruct (Re.after_prefix ": " r1) as [r2 |]; [| discriminate].
  destruct (span _ r2) as [rest r3].
  destruct (is_empty rest) eqn:Hr; [discriminate |].
  now intros [= <- <-].
Qed.

Lemma partition_at_groups (s gi ci : string) :
  Re.partition_at s = Some (gi, ci) ->
  (is_empty gi = false /\ all_chars isdecimal gi = true) /\
  (is_empty ci = false /\ all_chars isdecimal ci = true).
Proof.
  unfold Re.partition_at.
  destruct (Re.after_prefix "GI: " s) as [r |]; [| discriminate].
  pose proof (span_all isdecimal r) as Hg.
  destruct (span isdecimal r) as [g r1]. cbn [fst] in Hg.
  destruct (is_empty g) eqn:Eg; [discriminate |].
  destruct (Re.after_prefix ", CI: " r1) as [r2 |]; [| discriminate].
  pose proof (span_all isdecimal r2) as Hc.
  destruct (span isdecimal r2) as [c r3]. cbn [fst] in Hc.
  destruct (is_empty c) eqn:Ec; [discriminate |].
  now intros [= <- <-].
Qed.

Lemma search_partition_groups (line gi ci : string) :
  Re.search_partition line = Some (gi, ci) ->
  (is_empty gi = false /\ all_chars isdecimal gi = true) /\
  (is_empty ci = false /\ all_chars isdecimal ci = true).
Proof.
  induction line as [| c r IH]; cbn [Re.search_partition].
  - destruct (Re.partition_at "") as [[g k] |] eqn:E; [| discriminate].
    intros [= <- <-]. now apply partition_at_groups with "".
  - destruct (Re.partition_at (String c r)) as [[g k] |] eqn:E; [| exact IH].
    intros [= <- <-]. now apply partition_at_groups with (String c r).
Qed.

Lemma device_of_groups (line i n : string) :
  device_of line = Some (i, n) ->
  is_empty i = false /\ all_chars isdecimal i = true /\ is_empty n = false.
Proof.
  unfold device_of. destruct (startswith line "GPU "); [| discriminate].
  apply match_device_groups.
Qed.

Lemma partition_of_groups (line gi ci : string) :
  partition_of line = Some (gi, ci) ->
  (is_empty gi = false /\ all_chars isdecimal gi = true) /\
  (is_empty ci = false /\ all_chars isdecimal ci = true).
Proof.
  unfold partition_of. destruct (startswith line "GPU "); [discriminate |].
  destruct (contains "MIG Slice" line); [| discriminate].
  apply search_partition_groups.
Qed.

(** The first loop's body, read through the two views. *)
Lemma identity_step_view (st : Identity) (line : string) :
  identity_step st line =
  mkIdentity
    (match device_of line with
     | Some (i, _) => Some i | None => id_device_id st end)
    (match device_of line with
     | Some (_, n) => Some n | None => id_device_name st end)
    (match partition_of line with
     | Some (gi, _) => Some gi | None => id_gpu_instance_id st end)
    (match partition_of line with
     | Some (_, ci) => Some ci | None => id_compute_instance_id st end).
Proof.
  unfold identity_step, device_of, partition_of.
  destruct (startswith line "GPU ").
  - destruct (Re.match_device line) as [[i n] |]; [reflexivity | now destruct st].
  - destruct (contains "MIG Slice" line); [| now destruct st].
    destruct (Re.search_partition line) as [[gi ci] |];
      [reflexivity | now destruct st].
Qed.

Lemma fold_identity_no_device (lines : list string) (st : Identity) :
  Forall (fun l => device_of l = None) lines ->
  id_device_id (fold_left identity_step lines st) = id_device_id st /\
  id_device_name (fold_left identity_step lines st) = id_device_name st.
Proof.
  intros H. revert st. induction H as [| line lines Hl _ IH]; intros st.
  - now split.
  - cbn [fold_left]. destruct (IH (identity_step st line)) as [-> ->].
    rewrite identity_step_view, Hl. now split.
Qed.

Lemma fold_identity_no_partition (lines : list string) (st : Identity) :
  Forall (fun l => partition_of l = None) lines ->
  id_gpu_instance_id (fold_left identity_step lines st)
  = id_gpu_instance_id st /\
  id_compute_instance_id (fold_left identity_step lines st)
  = id_compute_instance_id st.
Proof.
  intros H. revert st. induction H as [| line lines Hl _ IH]; intros st.
  - now split.
  - cbn [fold_left]. destruct (IH (identity_step st line)) as [-> ->].
    rewrite identity_step_view, Hl. now split.
Qed.

Lemma identity_step_ok (st : Identity) (line : string) :
  identity_ok st -> identity_ok (identity_step st line).
Proof.
  intros (Hi & Hn & Hg & Hc). rewrite identity_step_view.
  unfold identity_ok. cbn.
  destruct (device_of line) as [[i n] |] eqn:Ed;
    [apply device_of_groups in Ed as (? & ? & ?) |];
    (destruct (partition_of line) as [[g c] |] eqn:Ep;
     [apply partition_of_groups in Ep as [[? ?] [? ?]] |]);
    (split; [| split; [| split]]); intros x Hx;
    try (injection Hx as <-); auto.
Qed.

Lemma find_identity_ok (lines : list string) :
  identity_ok (find_identity lines).
Proof.
  unfold find_identity.
  assert (H0 : identity_ok no_identity).
  { repeat split; cbn; discriminate. }
  revert H0. generalize no_identity.
  induction lines as [| line lines IH]; intros st Hst; [exact Hst |].
  cbn [fold_left]. apply IH. now apply identity_step_ok.
Qed.

Lemma or_default_some (s d : string) :
  is_empty s = false -> or_default (Some s) d = s.
Proof. unfold or_default. now intros ->. Qed.

(** ** Blank lines *)

Lemma split_blank (s : string) : all_chars isspace s = true -> split s = [].
Proof.
  induction s as [| c r IH]; [reflexivity |].
  cbn [all_chars split]. intros H. apply andb_true_iff in H as [-> Hr]. auto.
Qed.

Lemma lstrip_empty (s : string) :
  is_empty (rstrip_by isspace (lstrip_by isspace s)) = true ->
  all_chars isspace s = true.
Proof.
  induction s as [| c r IH]; [reflexivity |].
  cbn [lstrip_by all_chars]. destruct (isspace c) eqn:Hc; [exact IH |].
  cbn [rstrip_by]. rewrite Hc. cbn. discriminate.
Qed.

Lemma tokens_not_blank (line : string) :
  split line <> [] -> is_empty (strip line) = false.
Proof.
  intros Hne. destruct (is_empty (strip line)) eqn:E; [| reflexivity].
  exfalso. apply Hne, split_blank, lstrip_empty. exact E.
Qed.

(** ** Rows inside the table *)

Lemma healthy_row_parses (line : string) (m : MetricReading) :
  healthy_row line m -> parse_row line = Ok (Some m).
Proof.
  intros (_ & _ & first & names & value & rest &
          Hsplit & Hdigit & Hnames & Hvalue & Hfive & Hok & ->).
  assert (Hrest : rest <> []) by (intros ->; discriminate).
  unfold parse_row, row_gate.
  destruct (Z.leb_spec 5 (len (split line))) as [_ | Hbad]; [| lia].
  rewrite getitem_in_range by lia. rewrite Hsplit.
  change (nth (Z.to_nat 0) (first :: names ++ value :: rest) "") with first.
  cbn [bind]. rewrite Hdigit.
  rewrite (row_body_shape _ _ _ _ Hnames Hvalue Hrest), Hok. reflexivity.
Qed.

Lemma healthy_row_step (line : string) (m : MetricReading)
  (ms : list MetricReading) :
  healthy_row line m ->
  table_step (true, ms) line = Ok (true, (ms ++ [m])%list).
Proof.
  intros H. pose proof (healthy_row_parses _ _ H) as Hp.
  destruct H as (Hh & Hs & first & names & value & rest & Hsplit & _).
  unfold table_step. rewrite Hh, Hs.
  rewrite tokens_not_blank by (rewrite Hsplit; discriminate).
  cbn [andb negb]. now rewrite Hp.
Qed.




(** ** The claims about the parser *)

(** C1, as stated, fails: the row [3 Power 42.5 OK] inside the table has
    a numeric first token and a later token that [float] accepts, yet the
    sample holds no reading with its id, name and value, whatever the unit:
    a row of four tokens does not pass the gate. *)
Lemma short_row_refutes_grammar_claim :
  ~ (forall output pre line post first names value rest,
        lines_of output = (pre ++ line :: post)%list ->
        Exists (fun l => is_header l = true) pre ->
        split line = first :: names ++ value :: rest ->
        isdigit first = true ->
        Forall (fun t => float_parses t = false) names ->
        float_parses value = true ->
        exists s m, _parse_output output = Ok s /\ In m (metrics s) /\
                    metric_id m = first /\
                    metric_name m = join "_" names /\
                    metric_value m = value).
Proof.
  intros claim.
  destruct (claim report_short_row ["ID Name Value Unit Status"]
                  "3 Power 42.5 OK" [] "3" ["Power"] "42.5" ["OK"])
    as (s & m & Hs & Hin & _); try reflexivity.
  - now constructor.
  - now repeat constructor.
  - vm_compute in Hs. injection Hs as <-. exact Hin.
Qed.

(** C1 (amended): a line inside the table that is neither a header nor a
    separator line, with at least five tokens, a first token made of digits,
    a later token that [float] accepts and the last token [OK], gives the
    reading whose name is the tokens between the id and the first such token
    joined with an underscore, whose value is that token as written and whose
    unit is the token right after it; a row of fewer than five tokens gives
    none. *)
Theorem data_row_reading :
  forall output pre line post first names value rest,
    lines_of output = (pre ++ line :: post)%list ->
    Exists (fun l => is_header l = true) pre ->
    is_header line = false ->
    is_separator line = false ->
    split line = first :: names ++ value :: rest ->
    isdigit first = true ->
    Forall (fun t => float_parses t = false) names ->
    float_parses value = true ->
    last rest "" = "OK" ->
    (5 <= len (split line) ->
     parse_row line
     = Ok (Some (mkReading first (join "_" names) value (hd "" rest))) /\
     exists s, _parse_output output = Ok s /\
               In (mkReading first (join "_" names) value (hd "" rest))
                  (metrics s)) /\
    (len (split line) < 5 -> parse_row line = Ok None).
Proof.
  intros output pre line post first names value rest
         Hlines Hpre Hh Hs Hsplit Hd Hnames Hvalue Hok.
  split.
  - intros Hfive.
    set (m := mkReading first (join "_" names) value (hd "" rest)).
    assert (Hrow : healthy_row line m).
    { split; [assumption |]. split; [assumption |].
      exists first, names, value, rest. repeat split; assumption. }
    split; [now apply healthy_row_parses |].
    destruct (parse_output_returns output) as [b [ms [Hloop Hout]]].
    eexists. split; [exact Hout |]. cbn [metrics].
    rewrite Hlines, table_loop_app in Hloop.
    destruct (table_loop_adds pre false) as [b1 [new1 [H1 _]]].
    pose proof (table_loop_after_header pre false [] _ Hpre (H1 [])) as Hb1.
    cbn [fst] in Hb1. subst b1.
    rewrite (H1 []) in Hloop. cbn [bind app table_loop] in Hloop.
    rewrite (healthy_row_step _ _ _ Hrow) in Hloop. cbn [bind] in Hloop.
    destruct (table_loop_adds post true) as [b2 [new2 [H2 _]]].
    rewrite H2 in Hloop. injection Hloop as _ <-.
    apply in_or_app. left. apply in_or_app. right. now left.
  - intros Hshort. unfold parse_row, row_gate.
    destruct (Z.leb_spec 5 (len (split line))) as [Hbad | _]; [lia |].
    reflexivity.
Qed.

Lemma data_row_reading_witness :
  parse_row "3    Power Usage   42.5    W     OK"
  = Ok (Some (mkReading "3" "Power_Usage" "42.5" "W")) /\
  exists s, _parse_output report_full = Ok s /\
            In (mkReading "3" "Power_Usage" "42.5" "W") (metrics s).
Proof.
  apply (data_row_reading report_full
           ["GPU 0: NVIDIA H100"; "  MIG Slice  GI: 1, CI: 0";
            "ID   Name          Value   Unit  Status";
            "-------------------------------------"]
           "3    Power Usage   42.5    W     OK"
           ["4    broken row"; "6    Mem BW Util   0.5     %     OK"]
           "3" ["Power"; "Usage"] "42.5" ["W"; "OK"]);
    try reflexivity.
  - do 2 apply Exists_cons_tl. now apply Exists_cons_hd.
  - now repeat constructor.
  - vm_compute. discriminate.
Defined.

(** Why the amended statement names the other guards of the loop. *)

(** Without a unit column the token after the value is the status, and the
    reading carries it as its unit. *)
Example row_without_unit_column :
  parse_row "8 Mem BW Util 42.5 OK"
  = Ok (Some (mkReading "8" "Mem_BW_Util" "42.5" "OK")).
Proof. reflexivity. Qed.

(** A value that is the last token leaves the unit empty, and is itself
    read as the status: no reading. *)
Example row_ending_with_value : parse_row "8 Mem BW Util 42.5" = Ok None.
Proof. reflexivity. Qed.

(** A row whose name holds the three header words is taken for a header. *)
Example row_read_as_header :
  _parse_output ("ID Name Value Unit Status" ++ NL
                 ++ "3 ID Name Value 4.5 W OK")
  = Ok (mkSample "0" "Unknown" "" "" []).
Proof. reflexivity. Qed.

(** A row holding a run of five dashes is taken for a separator. *)
Example row_read_as_separator :
  _parse_output ("ID Name Value Unit Status" ++ NL
                 ++ "3 Power-----Usage 4.5 W OK")
  = Ok (mkSample "0" "Unknown" "" "" []).
Proof. reflexivity. Qed.

(** C2, as stated, fails: of two device lines the parser keeps the second. *)
Lemma later_device_line_wins :
  ~ (forall output pre line post i n,
        lines_of output = (pre ++ line :: post)%list ->
        Forall (fun l => Re.match_device l = None) pre ->
        Re.match_device line = Some (i, n) ->
        exists s, _parse_output output = Ok s /\
                  device_id s = i /\ device_name s = n).
Proof.
  intros claim.
  destruct (claim report_two_devices [] "GPU 0: Alpha" ["GPU 1: Beta"]
                  "0" "Alpha") as [s [Hs [Hid _]]]; try reflexivity.
  - constructor.
  - vm_compute in Hs. injection Hs as <-. discriminate Hid.
Qed.

(** C2 (amended): the device identity comes from the last line that the
    device pattern matches, and the partition identifiers from the last
    line holding the partition marker that the partition pattern matches;
    earlier matching lines are overwritten. *)
Theorem last_identity_line_wins :
  forall output pre line post,
    lines_of output = (pre ++ line :: post)%list ->
    (forall i n,
        device_of line = Some (i, n) ->
        Forall (fun l => device_of l = None) post ->
        exists s, _parse_output output = Ok s /\
                  device_id s = i /\ device_name s = n) /\
    (forall gi ci,
        partition_of line = Some (gi, ci) ->
        Forall (fun l => partition_of l = None) post ->
        exists s, _parse_output output = Ok s /\
                  gpu_instance_id s = gi /\ compute_instance_id s = ci).
Proof.
  intros output pre line post Hlines.
  destruct (parse_output_returns output) as [b [ms [_ Hout]]].
  assert (Hfold : find_identity (lines_of output)
                  = fold_left identity_step post
                      (identity_step (fold_left identity_step pre no_identity)
                                     line)).
  { unfold find_identity. rewrite Hlines, fold_left_app. reflexivity. }
  split.
  - intros i n Hline Hpost.
    apply device_of_groups in Hline as Hg. destruct Hg as (Hi & _ & Hn).
    eexists. split; [exact Hout |]. cbn [device_id device_name].
    rewrite Hfold.
    destruct (fold_identity_no_device post
                (identity_step (fold_left identity_step pre no_identity) line)
                Hpost) as [-> ->].
    rewrite identity_step_view, Hline. cbn [id_device_id id_device_name].
    now rewrite !or_default_some.
  - intros gi ci Hline Hpost.
    apply partition_of_groups in Hline as Hg. destruct Hg as [[Hgi _] [Hci _]].
    eexists. split; [exact Hout |].
    cbn [gpu_instance_id compute_instance_id]. rewrite Hfold.
    destruct (fold_identity_no_partition post
                (identity_step (fold_left identity_step pre no_identity) line)
                Hpost) as [-> ->].
    rewrite identity_step_view, Hline.
    cbn [id_gpu_instance_id id_compute_instance_id].
    now rewrite !or_default_some.
Qed.

Lemma last_identity_line_wins_witness :
  (exists s, _parse_output report_two_devices = Ok s /\
             device_id s = "1" /\ device_name s = "Beta") /\
  (exists s, _parse_output report_two_partitions = Ok s /\
             gpu_instance_id s = "2" /\ compute_instance_id s = "3").
Proof.
  split.
  - apply (last_identity_line_wins report_two_devices
             ["GPU 0: Alpha"] "GPU 1: Beta" []); [reflexivity .. | constructor].
  - apply (last_identity_line_wins report_two_partitions
             ["MIG Slice  GI: 1, CI: 0"] "MIG Slice  GI: 2, CI: 3" []);
      [reflexivity .. | constructor].
Defined.



(** C4: a row whose last token is not [OK] adds no reading; a report in
    which no line has the status [OK] gives no readings; and every reading
    of a parsed sample is the reading of a line of the report whose last
    token is [OK]. *)
Theorem status_filter :
  forall output s,
    _parse_output output = Ok s ->
    (forall line st,
        status_of line <> "OK" ->
        exists in_table, table_step st line = Ok (in_table, snd st)) /\
    ((forall line, In line (lines_of output) -> status_of line <> "OK") ->
     metrics s = []) /\
    (forall m, In m (metrics s) ->
               exists line, In line (lines_of output) /\
                            status_of line = "OK" /\
                            parse_row line = Ok (Some m)).
Proof.
  intros output s Hs.
  assert (Hsrc : forall m, In m (metrics s) ->
                 exists line, In line (lines_of output) /\
                              status_of line = "OK" /\
                              parse_row line = Ok (Some m)).
  { destruct (table_loop_adds (lines_of output) false) as [b [new [H Hnew]]].
    unfold _parse_output in Hs. cbv zeta in Hs.
    rewrite (H []) in Hs. cbn [bind app snd] in Hs. injection Hs as <-.
    cbn [metrics]. intros m Hm.
    rewrite Forall_forall in Hnew. destruct (Hnew m Hm) as [line [Hin Hp]].
    exists line. repeat split; try assumption.
    now apply parse_row_status with m. }
  split; [| split].
  - intros line [in_table ms] Hst. cbn [snd]. unfold table_step.
    destruct (is_header line); [eauto |].
    destruct (is_separator line); [eauto |].
    destruct (in_table && _); [| eauto].
    destruct (parse_row_total line) as [[m |] Hr]; rewrite Hr; cbn [bind].
    + exfalso. apply Hst. now apply parse_row_status with m.
    + eauto.
  - intros Hnone. destruct (metrics s) as [| m ms] eqn:E; [reflexivity |].
    destruct (Hsrc m (or_introl eq_refl)) as [line [Hin [Hok _]]].
    now destruct (Hnone line Hin).
  - exact Hsrc.
Qed.

Lemma status_filter_witness :
  _parse_output report_unhealthy
  = Ok (mkSample "0" "NVIDIA H100" "" "" []) /\
  (exists in_table,
      table_step (true, []) "3 Power Usage 42.5 W ERR" = Ok (in_table, [])) /\
  metrics (mkSample "0" "NVIDIA H100" "" "" []) = [].
Proof.
  assert (Hs : _parse_output report_unhealthy
               = Ok (mkSample "0" "NVIDIA H100" "" "" []))
    by reflexivity.
  destruct (status_filter report_unhealthy _ Hs) as [Hrow [Hnone _]].
  split; [exact Hs |]. split.
  - apply (Hrow "3 Power Usage 42.5 W ERR" (true, [])).
    vm_compute. discriminate.
  - apply Hnone. intros line Hin. vm_compute in Hin.
    destruct Hin as [<- | [<- | [<- | [<- | []]]]]; vm_compute; discriminate.
Defined.

(** C5: a report none of whose lines matches the device pattern gives the
    device id [0] and the device name [Unknown], and empty partition
    identifiers when no line matches the partition pattern either; the
    sample is returned all the same. *)
Theorem identity_defaults :
  forall output,
    Forall (fun l => Re.match_device l = None) (lines_of output) ->
    exists s, _parse_output output = Ok s /\
              device_id s = "0" /\ device_name s = "Unknown" /\
              (Forall (fun l => Re.search_partition l = None)
                      (lines_of output) ->
               gpu_instance_id s = "" /\ compute_instance_id s = "").
Proof.
  intros output Hnone.
  destruct (parse_output_returns output) as [b [ms [_ Hout]]].
  eexists. split; [exact Hout |].
  cbn [device_id device_name gpu_instance_id compute_instance_id].
  unfold find_identity.
  assert (Hdev : Forall (fun l => device_of l = None) (lines_of output)).
  { eapply Forall_impl; [| exact Hnone]. intros l Hl. unfold device_of.
    now destruct (startswith l "GPU "). }
  destruct (fold_identity_no_device _ no_identity Hdev) as [-> ->].
  repeat split; try reflexivity.
  - assert (Hp : Forall (fun l => partition_of l = None) (lines_of output)).
    { eapply Forall_impl; [| exact H]. intros l Hl. unfold partition_of.
      destruct (startswith l "GPU "); [reflexivity |].
      now destruct (contains "MIG Slice" l). }
    now destruct (fold_identity_no_partition _ no_identity Hp) as [-> _].
  - assert (Hp : Forall (fun l => partition_of l = None) (lines_of output)).
    { eapply Forall_impl; [| exact H]. intros l Hl. unfold partition_of.
      destruct (startswith l "GPU "); [reflexivity |].
      now destruct (contains "MIG Slice" l). }
    now destruct (fold_identity_no_partition _ no_identity Hp) as [_ ->].
Qed.

Lemma identity_defaults_witness :
  exists s, _parse_output report_no_identity = Ok s /\
            device_id s = "0" /\ device_name s = "Unknown" /\
            (Forall (fun l => Re.search_partition l = None)
                    (lines_of report_no_identity) ->
             gpu_instance_id s = "" /\ compute_instance_id s = "").
Proof.
  apply (identity_defaults report_no_identity). now repeat constructor.
Defined.

(** ** What a parsed sample looks like *)

Lemma any_char_app (p : ascii -> bool) (a b : string) :
  any_char p (a ++ b) = any_char p a || any_char p b.
Proof.
  induction a as [| c r IH]; [reflexivity |].
  cbn [append any_char]. now rewrite IH, orb_assoc.
Qed.

Lemma all_nonempty_any (p : ascii -> bool) (s : string) :
  is_empty s = false -> all_chars p s = true -> any_char p s = true.
Proof.
  destruct s as [| c r]; [discriminate |]. cbn [all_chars any_char].
  intros _ H. apply andb_true_iff in H as [-> _]. reflexivity.
Qed.

Lemma row_body_id (parts : list string) (m : MetricReading) :
  row_body parts = Ok (Some m) -> metric_id m = nth 0 parts "".
Proof.
  unfold row_body. destruct parts as [| p0 ps]; [cbn; discriminate |].
  rewrite getitem_in_range
    by (rewrite len_cons; pose proof (len_nonneg ps); lia).
  cbn [bind]. destruct (find_value_idx _ _) as [k |]; [| discriminate].
  cbn [bind]. destruct (0 <? _); [| discriminate].
  destruct (getitem (p0 :: ps) _) as [v |]; [| discriminate]. cbn [bind].
  destruct (if _ <? _ then _ else _) as [u |]; [| discriminate]. cbn [bind].
  destruct (getitem (p0 :: ps) (-1)) as [s |]; [| discriminate]. cbn [bind].
  destruct (String.eqb s "OK"); [| discriminate].
  now intros [= <-].
Qed.

Lemma parse_row_id (line : string) (m : MetricReading) :
  parse_row line = Ok (Some m) -> isdigit (metric_id m) = true.
Proof.
  unfold parse_row.
  destruct (row_gate (split line)) as [[] |] eqn:Eg; cbn [bind];
    try discriminate.
  apply row_gate_true in Eg as [_ [first [others [Hsplit Hd]]]].
  destruct (row_body (split line)) as [r | []] eqn:E; try discriminate.
  intros [= ->]. apply row_body_id in E. rewrite E, Hsplit. exact Hd.
Qed.

Lemma parse_output_ok (output : string) (data : Sample) :
  _parse_output output = Ok data -> sample_ok data.
Proof.
  intros Hs.
  destruct (table_loop_adds (lines_of output) false) as [b [new [H Hnew]]].
  unfold _parse_output in Hs. cbv zeta in Hs.
  rewrite (H []) in Hs. cbn [bind app snd] in Hs. injection Hs as <-.
  destruct (find_identity_ok (lines_of output)) as (Hi & _ & Hg & _).
  unfold sample_ok. cbn [device_id gpu_instance_id metrics].
  split; [| split].
  - destruct (id_device_id _) as [i |]; [| reflexivity].
    destruct (Hi i eq_refl) as [Hne Hall].
    rewrite or_default_some by assumption. now apply all_nonempty_any.
  - destruct (id_gpu_instance_id _) as [g |]; [| reflexivity].
    destruct (Hg g eq_refl) as [Hne Hall].
    now rewrite or_default_some by assumption.
  - eapply Forall_impl; [| exact Hnew].
    intros m [line [_ Hm]]. now apply parse_row_id with line.
Qed.

(** ** What is written to the sink *)

Lemma writes_app (l1 l2 : list Effect) :
  writes (l1 ++ l2) = (writes l1 ++ writes l2)%list.
Proof.
  induction l1 as [| e l1 IH]; [reflexivity |].
  destruct e; cbn [app writes]; now rewrite IH.
Qed.

Lemma flushes_app (l1 l2 : list Effect) :
  flushes (l1 ++ l2) = flushes l1 + flushes l2.
Proof.
  induction l1 as [| e l1 IH]; [reflexivity |].
  destruct e; cbn [app flushes]; rewrite IH; lia.
Qed.

Lemma invocations_app (l1 l2 : list Effect) :
  invocations (l1 ++ l2) = invocations l1 + invocations l2.
Proof.
  induction l1 as [| e l1 IH]; [reflexivity |].
  destruct e; cbn [app invocations]; rewrite IH; lia.
Qed.

Lemma data_like_digits_first (g rest : string) :
  all_chars isdecimal g = true -> data_like (g ++ "," ++ rest) = true.
Proof.
  unfold data_like. destruct g as [| c r]; [reflexivity |].
  cbn [all_chars append head_char]. intros H.
  apply andb_true_iff in H as [Hc _].
  unfold isdigit_char. now rewrite Hc.
Qed.

Lemma data_like_id_first (i rest : string) :
  isdigit i = true -> data_like (i ++ rest) = true.
Proof.
  unfold data_like, isdigit. destruct i as [| c r]; [discriminate |].
  cbn [is_empty negb andb all_chars append head_char]. intros H.
  apply andb_true_iff in H as [-> _]. reflexivity.
Qed.

Lemma data_like_digit_inside (a d rest : string) :
  any_char isdecimal d = true -> data_like (a ++ "," ++ d ++ rest) = true.
Proof.
  intros Hd. unfold data_like.
  rewrite !any_char_app, Hd. now rewrite !orb_true_r.
Qed.

Lemma row_writes_data_like (timestamp : string) (data : Sample)
  (m : MetricReading) :
  sample_ok data -> isdigit (metric_id m) = true ->
  Forall (fun w => data_like w = true) (writes (row_writes timestamp data m)).
Proof.
  intros (Hdev & Hgi & _) Hm. unfold row_writes. cbn [writes].
  repeat constructor.
  - now apply data_like_digit_inside.
  - now apply data_like_digits_first.
  - now apply data_like_id_first.
Qed.

Lemma write_csv_row_data_like (timestamp : string) (data : Sample) :
  sample_ok data ->
  Forall (fun w => data_like w = true)
         (writes (flat_map (row_writes timestamp data) (metrics data))).
Proof.
  intros Hok. pose proof Hok as (_ & _ & Hms).
  induction Hms as [| m ms Hm _ IH]; [constructor |].
  cbn [flat_map]. rewrite writes_app. apply Forall_app. split; [| exact IH].
  now apply row_writes_data_like.
Qed.

Lemma flushes_rows (timestamp : string) (data : Sample)
  (ms : list MetricReading) :
  flushes (flat_map (row_writes timestamp data) ms) = 0.
Proof. induction ms as [| m ms IH]; [reflexivity | exact IH]. Qed.

Lemma invocations_rows (timestamp : string) (data : Sample)
  (ms : list MetricReading) :
  invocations (flat_map (row_writes timestamp data) ms) = 0.
Proof. induction ms as [| m ms IH]; [reflexivity | exact IH]. Qed.

(** ** One tick, and the loop *)

Section Loop.

Variable self : Monitor.
Variable duration_sec : option Z.
Variable start_time : Q.

Lemma record_sample_returns (env : Tick) (stdout : string) (st : RunState) :
  exists data progress,
    _parse_output stdout = Ok data /\
    writes progress = [] /\ flushes progress = 0 /\
    invocations progress = 0 /\
    record_sample env stdout st =
    Ok (mkRunState
          (log st ++ flat_map (row_writes (tk_timestamp env) data)
                              (metrics data)
           ++ [Flush] ++ progress)
          (iteration st + 1)).
Proof.
  destruct (parse_output_returns stdout) as [b [ms [_ Hout]]].
  unfold record_sample, _write_csv_row. rewrite Hout. cbn [bind].
  eexists. destruct ((iteration st + 1) mod 10 =? 0).
  - exists [Stderr (CR ++ "Samples collected: "
                    ++ str_of_Z (iteration st + 1)); StderrFlush].
    split; [reflexivity |]. repeat split.
    now rewrite <- !app_assoc.
  - exists []. split; [reflexivity |]. repeat split.
Qed.

Lemma pause_adds (env : Tick) (st : RunState) :
  exists extra,
    snd (pause self env st) = mkRunState (log st ++ extra) (iteration st) /\
    writes extra = [] /\ flushes extra = 0 /\ invocations extra = 0.
Proof.
  unfold pause. cbv zeta. destruct (gt_zero _); cbn [snd].
  - eexists [_]. repeat split.
  - exists []. rewrite app_nil_r. now destruct st.
Qed.

Lemma pause_fst (env : Tick) (st : RunState) :
  fst (pause self env st) = pause_status self env.
Proof. unfold pause, pause_status. cbv zeta. now destruct (gt_zero _). Qed.

Lemma pause_status_cases (env : Tick) :
  pause_status self env = Running \/ pause_status self env = Crashed.
Proof.
  unfold pause_status. destruct (gt_zero _); [| now left].
  destruct (tk_sleep env); [now left | now right].
Qed.

(** What a tick appends to the log: writes that all look like data, one
    flush per sample counted, and the probe started at most once. *)
Lemma tick_adds (env : Tick) (st : RunState) :
  exists extra,
    log (snd (tick self duration_sec start_time env st))
    = (log st ++ extra)%list /\
    Forall (fun w => data_like w = true) (writes extra) /\
    flushes extra
    = iteration (snd (tick self duration_sec start_time env st))
      - iteration st.
Proof.
  unfold tick. destruct (negb (tk_running env)).
  { exists []. cbn [snd]. rewrite app_nil_r. no_data_written. }
  destruct (limit_reached _ _ _).
  { eexists [_]. no_data_written. }
  destruct (tk_probe env) as [rc out err | | |].
  - destruct (rc =? 0).
    + destruct (record_sample_returns env out
                  (mkRunState (log st ++ [Invoke]) (iteration st)))
        as (data & progress & Hdata & Hw & Hf & Hi & ->).
      destruct (pause_adds env
                  (mkRunState
                     (log (mkRunState (log st ++ [Invoke]) (iteration st))
                      ++ flat_map (row_writes (tk_timestamp env) data)
                                  (metrics data)
                      ++ [Flush] ++ progress)
                     (iteration (mkRunState (log st ++ [Invoke])
                                            (iteration st)) + 1)))
        as (extra & -> & Hw' & Hf' & Hi').
      cbn [snd log iteration]. eexists. split.
      * rewrite <- !app_assoc. reflexivity.
      * rewrite !writes_app, !flushes_app, Hw, Hw', Hf, Hf', flushes_rows.
        cbn [writes flushes app]. rewrite !app_nil_r. split; [| lia].
        apply write_csv_row_data_like. now apply parse_output_ok with out.
    + eexists [_; _]. cbn [snd say log iteration].
      rewrite <- app_assoc. no_data_written.
  - eexists [_; _]. cbn [snd say log iteration].
    rewrite <- app_assoc. no_data_written.
  - eexists [_; _]. cbn [snd say log iteration].
    rewrite <- app_assoc. no_data_written.
  - eexists [_]. no_data_written.
Qed.

Lemma loop_cons (env : Tick) (rest : list Tick) (st : RunState) :
  loop self duration_sec start_time (env :: rest) st =
  match fst (tick self duration_sec start_time env st) with
  | Running =>
      loop self duration_sec start_time rest
           (snd (tick self duration_sec start_time env st))
  | _ => tick self duration_sec start_time env st
  end.
Proof.
  cbn [loop].
  now destruct (tick self duration_sec start_time env st) as [[] st'].
Qed.

Lemma loop_adds (script : list Tick) (st : RunState) :
  exists extra,
    log (snd (loop self duration_sec start_time script st))
    = (log st ++ extra)%list /\
    Forall (fun w => data_like w = true) (writes extra) /\
    flushes extra
    = iteration (snd (loop self duration_sec start_time script st))
      - iteration st.
Proof.
  revert st. induction script as [| env rest IH]; intros st.
  - exists []. cbn [loop snd]. rewrite app_nil_r. no_data_written.
  - rewrite loop_cons.
    destruct (tick_adds env st) as (e1 & Hl1 & Hw1 & Hf1).
    destruct (fst (tick self duration_sec start_time env st));
      try (exists e1; now repeat split).
    destruct (IH (snd (tick self duration_sec start_time env st)))
      as (e2 & Hl2 & Hw2 & Hf2).
    exists (e1 ++ e2)%list. rewrite Hl2, Hl1, app_assoc.
    split; [reflexivity |]. rewrite writes_app, flushes_app.
    split; [now apply Forall_app | lia].
Qed.

(** What [run] leaves: the log of the loop, and after it the [finally]
    block when the loop has ended. *)
Lemma run_log (script : list Tick) :
  let r := loop self duration_sec start_time script (start self) in
  fst (run self duration_sec start_time script) = fst r /\
  iteration (snd (run self duration_sec start_time script))
  = iteration (snd r) /\
  exists closing,
    log (snd (run self duration_sec start_time script))
    = (log (snd r) ++ closing)%list /\
    writes closing = [] /\ flushes closing = 0 /\
    (fst r = Running -> closing = []) /\
    (fst r <> Running ->
     exists l, closing = (l ++ [total_notice (iteration (snd r))])%list).
Proof.
  cbv zeta. unfold run.
  destruct (loop self duration_sec start_time script (start self))
    as [status st].
  assert (Hfin : exists closing,
             log (finally self st) = (log st ++ closing)%list /\
             writes closing = [] /\ flushes closing = 0 /\
             exists l, closing = (l ++ [total_notice (iteration st)])%list).
  { unfold finally, say. cbn [log iteration].
    destruct (has_output_file self).
    - exists [Close; total_notice (iteration st)]. rewrite <- app_assoc.
      repeat split. now exists [Close].
    - exists [total_notice (iteration st)]. repeat split. now exists []. }
  destruct Hfin as (closing & Hlog & Hw & Hf & Hl).
  destruct status; cbn [fst snd];
    try (split; [reflexivity |]; split; [reflexivity |];
         exists closing; repeat split; try assumption;
         intros; try discriminate; assumption).
  split; [reflexivity |]. split; [reflexivity |].
  exists []. rewrite app_nil_r. repeat split. intros H. now destruct H.
Qed.

Lemma start_log :
  writes (log (start self)) = [header_fst; header_snd] /\
  flushes (log (start self)) = 1 /\ iteration (start self) = 0.
Proof.
  unfold start, _write_csv_header. cbn [log iteration].
  destruct (output_file self) as [f |]; [destruct (is_empty f) |];
    now repeat split.
Qed.

(** The counter is the number of samples written: one flush for the
    header and one for each sample. *)
Lemma counter_counts_samples (script : list Tick) :
  iteration (snd (run self duration_sec start_time script))
  = flushes (log (snd (run self duration_sec start_time script))) - 1.
Proof.
  destruct (run_log script) as (_ & Hit & closing & Hlog & _ & Hf & _).
  destruct (loop_adds script (start self)) as (extra & Hloop & _ & Hflush).
  destruct start_log as (_ & Hf0 & Hi0).
  rewrite Hit, Hlog, Hloop, !flushes_app, Hf, Hf0, Hflush, Hi0. lia.
Qed.

(** The loop ends by the limit only where the duration test says so. *)
Lemma tick_limit_by_test (env : Tick) (st : RunState) :
  fst (tick self duration_sec start_time env st) = LimitReached ->
  limit_reached duration_sec start_time (tk_now env) = true.
Proof.
  unfold tick. destruct (negb (tk_running env)); [discriminate |].
  destruct (limit_reached _ _ _); [reflexivity |].
  destruct (tk_probe env) as [rc out err | | |]; try discriminate.
  destruct (rc =? 0); [| discriminate].
  destruct (record_sample _ _ _); [| discriminate].
  rewrite pause_fst. destruct (pause_status_cases env) as [-> | ->];
    discriminate.
Qed.

End Loop.

(** ** The claims about the controller *)

Lemma headers_not_data_like :
  data_like header_fst = false /\ data_like header_snd = false.
Proof. split; reflexivity. Qed.

(** C6: whatever the ticks bring, the sink receives the two parts of the
    header first and never again: all that follows is row text. *)
Theorem header_written_once :
  forall self duration_sec start_time script,
  exists rows,
    writes (log (snd (run self duration_sec start_time script)))
    = header_fst :: header_snd :: rows /\
    ~ In header_fst rows /\ ~ In header_snd rows.
Proof.
  intros self duration_sec start_time script.
  destruct (run_log self duration_sec start_time script)
    as (_ & _ & closing & Hlog & Hw & _).
  destruct (loop_adds self duration_sec start_time script (start self))
    as (extra & Hloop & Hdata & _).
  destruct (start_log self) as (Hstart & _).
  exists (writes extra).
  rewrite Hlog, Hloop, !writes_app, Hstart, Hw, app_nil_r.
  split; [reflexivity |].
  rewrite Forall_forall in Hdata.
  destruct headers_not_data_like as [H1 H2].
  split; intros Hin; apply Hdata in Hin; congruence.
Qed.

(** A run of three seconds: a sample, a probe that times out, and the
    limit met at the third tick. *)
Example run_to_the_limit :
  let r := run monitor_1s (Some 3) 0
               [tick_at 0 (Completed 0 report_no_identity "");
                tick_at 1 TimeoutExpired;
                tick_at 3 (Completed 0 report_no_identity "")] in
  fst r = LimitReached /\
  writes (log (snd r))
  = [header_fst; header_snd;
     "2026-01-01T00:00:00,0,Unknown,"; ",,";
     "3,Power_Usage,42.5,W" ++ NL] /\
  iteration (snd r) = 1 /\
  invocations (log (snd r)) = 2.
Proof. repeat split. Qed.

(** C7: a probe that times out leaves the loop going with no sample
    written and the counter as it was; a missing binary or an exit code
    other than zero ends the loop as failed, whatever ticks would follow;
    and a run that has ended, however it ended, closes its log with the
    number of samples written. *)
Theorem failure_policy :
  forall self duration_sec start_time,
    (forall env rest st,
        tk_running env = true ->
        limit_reached duration_sec start_time (tk_now env) = false ->
        tk_probe env = TimeoutExpired ->
        exists st',
          loop self duration_sec start_time (env :: rest) st
          = loop self duration_sec start_time rest st' /\
          iteration st' = iteration st /\
          writes (log st') = writes (log st)) /\
    (forall env rest st,
        tk_running env = true ->
        limit_reached duration_sec start_time (tk_now env) = false ->
        (tk_probe env = FileNotFoundError \/
         exists returncode stdout stderr,
           tk_probe env = Completed returncode stdout stderr /\
           returncode <> 0) ->
        exists st',
          loop self duration_sec start_time (env :: rest) st = (Failed, st') /\
          iteration st' = iteration st /\
          writes (log st') = writes (log st)) /\
    (forall script,
        fst (run self duration_sec start_time script) <> Running ->
        let st := snd (run self duration_sec start_time script) in
        (exists l, log st = (l ++ [total_notice (iteration st)])%list) /\
        iteration st = flushes (log st) - 1).
Proof.
  intros self duration_sec start_time. split; [| split].
  - intros env rest st Hrun Hlimit Hprobe.
    eexists. rewrite loop_cons. unfold tick.
    rewrite Hrun, Hlimit, Hprobe. cbn [negb fst snd].
    split; [reflexivity |]. split; [reflexivity |].
    cbn [say log]. rewrite <- app_assoc, writes_app. cbn [app writes].
    apply app_nil_r.
  - intros env rest st Hrun Hlimit Hprobe.
    rewrite loop_cons. unfold tick.
    rewrite Hrun, Hlimit. cbn [negb].
    destruct Hprobe as [-> | (rc & out & err & -> & Hrc)].
    + eexists. cbn [fst]. split; [reflexivity |]. split; [reflexivity |].
      cbn [say log]. rewrite <- app_assoc, writes_app. cbn [app writes].
      apply app_nil_r.
    + destruct (Z.eqb_spec rc 0) as [Hz | _]; [contradiction |].
      eexists. cbn [fst]. split; [reflexivity |]. split; [reflexivity |].
      cbn [say log]. rewrite <- app_assoc, writes_app. cbn [app writes].
      apply app_nil_r.
  - intros script Hstopped. cbv zeta.
    split; [| apply counter_counts_samples].
    destruct (run_log self duration_sec start_time script)
      as (Hst & Hit & closing & Hlog & _ & _ & _ & Hend).
    rewrite Hst in Hstopped. destruct (Hend Hstopped) as [l ->].
    exists (log (snd (loop self duration_sec start_time script (start self)))
            ++ l)%list.
    now rewrite Hlog, Hit, app_assoc.
Qed.

Lemma failure_policy_witness :
  (exists st',
      loop monitor_1s (Some 3) 0
           [tick_at 1 TimeoutExpired; tick_at 2 FileNotFoundError]
           (start monitor_1s)
      = loop monitor_1s (Some 3) 0 [tick_at 2 FileNotFoundError] st' /\
      iteration st' = 0 /\
      writes (log st') = writes (log (start monitor_1s))) /\
  (exists st',
      loop monitor_1s (Some 3) 0
           [tick_at 2 (Completed 1 "" "no device"); tick_at 3 TimeoutExpired]
           (start monitor_1s)
      = (Failed, st') /\
      iteration st' = 0 /\
      writes (log st') = writes (log (start monitor_1s))) /\
  (let st := snd (run monitor_1s (Some 3) 0
                      [tick_at 1 TimeoutExpired;
                       tick_at 2 FileNotFoundError]) in
   (exists l, log st = (l ++ [total_notice (iteration st)])%list) /\
   iteration st = flushes (log st) - 1).
Proof.
  destruct (failure_policy monitor_1s (Some 3) 0) as (Htimeout & Hfatal & Hend).
  split; [| split].
  - apply (Htimeout (tick_at 1 TimeoutExpired)); reflexivity.
  - apply (Hfatal (tick_at 2 (Completed 1 "" "no device")));
      try reflexivity.
    right. exists 1, "", "no device". split; [reflexivity | discriminate].
  - apply (Hend [tick_at 1 TimeoutExpired; tick_at 2 FileNotFoundError]).
    vm_compute. discriminate.
Defined.

Lemma limit_reached_iff (d : Z) (start_time now : Q) :
  d <> 0 ->
  limit_reached (Some d) start_time now = true
  <-> (inject_Z d <= now - start_time)%Q.
Proof.
  intros Hd. unfold limit_reached.
  destruct (Z.eqb_spec d 0) as [Hz | _]; [contradiction |].
  cbn [negb andb]. apply Qle_bool_iff.
Qed.

(** C8, as stated, fails for the duration 0: five seconds after the start
    the limit of zero seconds has passed, and the tick starts the probe all
    the same. *)
Lemma zero_duration_starts_ticks :
  ~ (forall self d start_time env st,
        tk_running env = true ->
        (inject_Z d <= tk_now env - start_time)%Q ->
        invocations (log (snd (tick self (Some d) start_time env st)))
        = invocations (log st)).
Proof.
  intros claim.
  specialize (claim monitor_1s 0 0%Q (tick_at 5 TimeoutExpired)
                    (start monitor_1s) eq_refl).
  assert (H : (inject_Z 0 <= tk_now (tick_at 5 TimeoutExpired) - 0)%Q)
    by (vm_compute; discriminate).
  specialize (claim H). vm_compute in claim. discriminate.
Qed.

(** C8 (amended): with a duration other than zero, a tick first compares
    the time since the start with the duration.  When the duration has
    passed, the tick does nothing but give the notice and end the loop as
    [LimitReached]: the probe is not started, nothing is written and the
    counter stays.  So whenever a tick starts the probe, the duration had
    not passed at its test, and the probe is the first thing the tick adds
    to the log; and a tick ends the loop by the limit only at that test,
    with nothing of the tick done. *)
Theorem duration_checked_first :
  forall self d start_time env st,
    d <> 0 ->
    tk_running env = true ->
    ((inject_Z d <= tk_now env - start_time)%Q ->
     tick self (Some d) start_time env st
     = (LimitReached, say st (limit_notice d))) /\
    (invocations (log (snd (tick self (Some d) start_time env st)))
     <> invocations (log st) ->
     (tk_now env - start_time < inject_Z d)%Q /\
     exists rest,
       log (snd (tick self (Some d) start_time env st))
       = (log st ++ Invoke :: rest)%list) /\
    (fst (tick self (Some d) start_time env st) = LimitReached ->
     (inject_Z d <= tk_now env - start_time)%Q /\
     snd (tick self (Some d) start_time env st) = say st (limit_notice d)).
Proof.
  intros self d start_time env st Hd Hrun.
  assert (Hstop : (inject_Z d <= tk_now env - start_time)%Q ->
                  tick self (Some d) start_time env st
                  = (LimitReached, say st (limit_notice d))).
  { intros Hle. apply (limit_reached_iff d start_time _ Hd) in Hle.
    unfold tick. now rewrite Hrun, Hle. }
  split; [exact Hstop |]. split.
  2: { intros Hlimit. apply tick_limit_by_test in Hlimit.
       apply (limit_reached_iff d start_time _ Hd) in Hlimit.
       split; [exact Hlimit |]. now rewrite (Hstop Hlimit). }
  intros Hinv.
  destruct (Qlt_le_dec (tk_now env - start_time) (inject_Z d)) as [Hlt | Hle].
  - split; [exact Hlt |].
    assert (Hno : limit_reached (Some d) start_time (tk_now env) = false).
    { destruct (limit_reached (Some d) start_time (tk_now env)) eqn:E;
        [| reflexivity].
      apply (limit_reached_iff d start_time _ Hd) in E. lra. }
    unfold tick. rewrite Hrun, Hno. cbn [negb].
    destruct (tk_probe env) as [rc out err | | |].
    + destruct (rc =? 0).
      * destruct (record_sample_returns env out
                    (mkRunState (log st ++ [Invoke]) (iteration st)))
          as (data & progress & _ & _ & _ & _ & ->).
        destruct (pause_adds self env
                    (mkRunState
                       (log (mkRunState (log st ++ [Invoke]) (iteration st))
                        ++ flat_map (row_writes (tk_timestamp env) data)
                                    (metrics data)
                        ++ [Flush] ++ progress)
                       (iteration (mkRunState (log st ++ [Invoke])
                                              (iteration st)) + 1)))
          as (extra & -> & _).
        cbn [snd log]. eexists. rewrite <- !app_assoc. reflexivity.
      * cbn [snd say log]. eexists. rewrite <- app_assoc. reflexivity.
    + cbn [snd say log]. eexists. rewrite <- app_assoc. reflexivity.
    + cbn [snd say log]. eexists. rewrite <- app_assoc. reflexivity.
    + cbn [snd log]. now exists [].
  - exfalso. apply Hinv. rewrite (Hstop Hle). cbn [snd say log].
    rewrite invocations_app. cbn [invocations]. lia.
Qed.

Lemma duration_checked_first_witness :
  tick monitor_1s (Some 3) 0 (tick_at 3 TimeoutExpired) (start monitor_1s)
  = (LimitReached, say (start monitor_1s) (limit_notice 3)) /\
  ((tk_now (tick_at 2 TimeoutExpired) - 0 < inject_Z 3)%Q /\
   exists rest,
     log (snd (tick monitor_1s (Some 3) 0 (tick_at 2 TimeoutExpired)
                    (start monitor_1s)))
     = (log (start monitor_1s) ++ Invoke :: rest)%list) /\
  ((inject_Z 3 <= tk_now (tick_at 4 TimeoutExpired) - 0)%Q /\
   snd (tick monitor_1s (Some 3) 0 (tick_at 4 TimeoutExpired)
             (start monitor_1s))
   = say (start monitor_1s) (limit_notice 3)).
Proof.
  assert (Hd : 3 <> 0) by discriminate.
  split; [| split].
  - apply (duration_checked_first monitor_1s 3 0 (tick_at 3 TimeoutExpired)
             (start monitor_1s) Hd eq_refl).
    vm_compute. discriminate.
  - apply (duration_checked_first monitor_1s 3 0 (tick_at 2 TimeoutExpired)
             (start monitor_1s) Hd eq_refl).
    vm_compute. discriminate.
  - apply (duration_checked_first monitor_1s 3 0 (tick_at 4 TimeoutExpired)
             (start monitor_1s) Hd eq_refl).
    reflexivity.
Defined.

(** ** Doubles: the sign of a rounded difference *)

Lemma two_power_pos (e : Z) : (0 < 2 ^ e)%Q.
Proof. apply Qpower_0_lt. reflexivity. Qed.

(** Rounding keeps the sign that it is given. *)
Lemma round_not_positive (mx ex : Z) (lx : location) :
  float_pos (binary_round_aux 53 1024 true mx ex lx) = false.
Proof.
  unfold binary_round_aux.
  destruct (shr_fexp 53 1024 mx ex lx) as [mrs' e'].
  destruct (shr_fexp 53 1024 _ e' loc_Exact) as [mrs'' e''].
  destruct (shr_m mrs''); [reflexivity | | reflexivity].
  destruct (Z.leb _ _); reflexivity.
Qed.

Lemma normalize_not_positive (m e : Z) :
  m <= 0 -> float_pos (binary_normalize 53 1024 m e false) = false.
Proof.
  intros Hm. destruct m as [| p | p]; [reflexivity | lia |].
  cbn [binary_normalize]. unfold binary_round.
  destruct (shl_align _ _ _) as [mz ez]. apply round_not_positive.
Qed.

(** Aligning a mantissa to a lower exponent keeps what it stands for. *)
Lemma shl_align_value (m : positive) (e ez : Z) :
  ez <= e ->
  (inject_Z (Z.pos (fst (shl_align m e ez))) * 2 ^ ez
   == inject_Z (Z.pos m) * 2 ^ e)%Q.
Proof.
  intros Hle. unfold shl_align.
  destruct (ez - e) as [| d | d] eqn:Hd; cbn [fst].
  - assert (ez = e) by lia. subst. reflexivity.
  - lia.
  - change (Pos.iter xO m d) with (shift_pos d m).
    rewrite shift_pos_correct, Zpower_pos_nat.
    rewrite Zpower_nat_Z, positive_nat_Z.
    assert (He : e = Z.pos d + ez) by lia. rewrite He.
    rewrite Qpower_plus by discriminate.
    rewrite inject_Z_mult, Zpower_Qpower by lia.
    change (inject_Z 2) with 2%Q.
    generalize (2 ^ Z.pos d)%Q (2 ^ ez)%Q. intros a b. ring.
Qed.

Lemma scaled_value (s : bool) (m : positive) (e ez : Z) :
  ez <= e ->
  (inject_Z (cond_Zopp s (Z.pos (fst (shl_align m e ez)))) * 2 ^ ez
   == float_value (S754_finite s m e))%Q.
Proof.
  intros Hle. pose proof (shl_align_value m e ez Hle) as H.
  cbn [float_value]. destruct s; cbn [cond_Zopp].
  - rewrite !inject_Z_opp. lra.
  - exact H.
Qed.

Lemma finite_sign (s : bool) (m : positive) (e : Z) :
  (if s then float_value (S754_finite s m e) < 0
   else 0 < float_value (S754_finite s m e))%Q.
Proof.
  pose proof (two_power_pos e) as Hp. cbn [float_value].
  destruct s; cbn [cond_Zopp].
  - assert (H : (0 < inject_Z (Z.pos m) * 2 ^ e)%Q)
      by (apply Qmult_lt_0_compat; [reflexivity | exact Hp]).
    change (- Z.pos m) with (Z.opp (Z.pos m)). rewrite inject_Z_opp. lra.
  - apply Qmult_lt_0_compat; [reflexivity | exact Hp].
Qed.

(** A subtraction whose first operand is not the greater gives nothing
    above zero, whatever the rounding. *)
Lemma float_sub_not_positive (x y : double) :
  float_le x y = true -> float_pos (float_sub x y) = false.
Proof.
  destruct x as [sx | sx | | sx mx ex], y as [sy | sy | | sy my ey];
    cbn [float_le float_sub SFsub]; intros Hle; try discriminate Hle;
    try (destruct sx, sy; try discriminate Hle; reflexivity);
    try (destruct sx; try discriminate Hle; reflexivity);
    try (destruct sy; try discriminate Hle; reflexivity).
  - apply Qle_bool_iff in Hle.
    pose proof (finite_sign sy my ey) as Hs.
    destruct sy; [cbn [float_value] in *; lra | reflexivity].
  - apply Qle_bool_iff in Hle.
    pose proof (finite_sign sx mx ex) as Hs.
    destruct sx; [reflexivity | cbn [float_value] in *; lra].
  - apply Qle_bool_iff in Hle. cbv zeta.
    apply normalize_not_positive.
    pose proof (scaled_value sx mx ex (Z.min ex ey) (Z.le_min_l _ _)) as Hx.
    pose proof (scaled_value sy my ey (Z.min ex ey) (Z.le_min_r _ _)) as Hy.
    pose proof (two_power_pos (Z.min ex ey)) as Hp.
    rewrite <- Hx, <- Hy in Hle.
    apply Qmult_le_r in Hle; [| exact Hp].
    rewrite <- Zle_Qle in Hle. lia.
Qed.

Lemma shr_m_of_loc (m : Z) (l : location) :
  shr_m (shr_record_of_loc m l) = m.
Proof. destruct l as [| []]; reflexivity. Qed.

(** A shift to the right by one bit of a mantissa of two bits or more. *)
Lemma shr_1_positive (mrs : shr_record) :
  0 < shr_m mrs -> 2 <= Zdigits2 (shr_m mrs) ->
  0 < shr_m (shr_1 mrs) /\
  Zdigits2 (shr_m (shr_1 mrs)) = Zdigits2 (shr_m mrs) - 1.
Proof.
  destruct mrs as [m r s]. cbn [shr_m].
  destruct m as [| [q | q |] |]; cbn [shr_1 shr_m Zdigits2 digits2_pos];
    intros Hm Hd; try lia; rewrite Pos2Z.inj_succ; lia.
Qed.

Lemma iter_shr_1_positive (p : positive) :
  forall mrs,
    0 < shr_m mrs -> Z.pos p < Zdigits2 (shr_m mrs) ->
    0 < shr_m (iter_pos shr_1 p mrs) /\
    Zdigits2 (shr_m (iter_pos shr_1 p mrs)) = Zdigits2 (shr_m mrs) - Z.pos p.
Proof.
  induction p as [p IH | p IH |]; intros mrs Hm Hd; cbn [iter_pos].
  - destruct (shr_1_positive mrs Hm) as [H1 D1]; [lia |].
    destruct (IH (shr_1 mrs) H1) as [H2 D2]; [lia |].
    destruct (IH _ H2) as [H3 D3]; [lia |].
    split; [exact H3 | lia].
  - destruct (IH mrs Hm) as [H2 D2]; [lia |].
    destruct (IH _ H2) as [H3 D3]; [lia |].
    split; [exact H3 | lia].
  - apply shr_1_positive; [exact Hm | lia].
Qed.

Lemma digits_positive (m : Z) : 0 < m -> 0 < Zdigits2 m.
Proof. destruct m; cbn; lia. Qed.

(** From the least exponent on, the shift of the rounding leaves a bit of
    a mantissa above zero. *)
Lemma shr_fexp_positive (m e : Z) (l : location) :
  0 < m -> emin 53 1024 <= e ->
  0 < shr_m (fst (shr_fexp 53 1024 m e l)) /\
  emin 53 1024 <= snd (shr_fexp 53 1024 m e l).
Proof.
  intros Hm He. unfold shr_fexp, shr.
  pose proof (digits_positive m Hm) as Hd.
  destruct (fexp 53 1024 (Zdigits2 m + e) - e) as [| n | n] eqn:Hn;
    cbn [fst snd]; rewrite ?shr_m_of_loc; try (split; assumption).
  unfold fexp in Hn.
  destruct (iter_shr_1_positive n (shr_record_of_loc m l)) as [H _];
    rewrite ?shr_m_of_loc; try assumption; [lia |].
  split; [exact H | lia].
Qed.

Lemma shr_fexp_above_emin (m e : Z) (l : location) :
  emin 53 1024 <= snd (shr_fexp 53 1024 m e l).
Proof.
  unfold shr_fexp, shr.
  destruct (fexp 53 1024 (Zdigits2 m + e) - e) as [| n | n] eqn:Hn;
    cbn [snd]; unfold fexp in Hn; lia.
Qed.

Lemma round_nearest_even_positive (m : Z) (l : location) :
  0 < m -> 0 < round_nearest_even m l.
Proof.
  intros Hm. destruct l as [| []]; cbn [round_nearest_even]; try lia.
  destruct (Z.even m); lia.
Qed.

(** No mantissa above zero at the least exponent or above it is rounded
    to zero. *)
Lemma round_positive (m e : Z) (l : location) :
  0 < m -> emin 53 1024 <= e ->
  float_pos (binary_round_aux 53 1024 false m e l) = true.
Proof.
  intros Hm He. unfold binary_round_aux.
  destruct (shr_fexp_positive m e l Hm He) as [H1 E1].
  destruct (shr_fexp 53 1024 m e l) as [mrs' e']. cbn [fst snd] in H1, E1.
  pose proof (round_nearest_even_positive (shr_m mrs')
                (loc_of_shr_record mrs') H1) as H2.
  destruct (shr_fexp_positive _ e' loc_Exact H2 E1) as [H3 _].
  destruct (shr_fexp 53 1024 _ e' loc_Exact) as [mrs'' e''].
  cbn [fst] in H3.
  destruct (shr_m mrs''); [lia | | lia].
  destruct (Z.leb _ _); reflexivity.
Qed.

Lemma round_above_emin (s : bool) (m e : Z) (l : location) :
  above_emin (binary_round_aux 53 1024 s m e l).
Proof.
  unfold binary_round_aux.
  destruct (shr_fexp 53 1024 m e l) as [mrs' e'].
  pose proof (shr_fexp_above_emin
                (round_nearest_even (shr_m mrs') (loc_of_shr_record mrs'))
                e' loc_Exact) as H.
  destruct (shr_fexp 53 1024 _ e' loc_Exact) as [mrs'' e''].
  cbn [snd] in H.
  destruct (shr_m mrs''); cbn [above_emin]; try exact I.
  destruct (Z.leb _ _); cbn [above_emin]; [exact H | exact I].
Qed.

Lemma shl_align_above_emin (m : positive) (e e' : Z) :
  emin 53 1024 <= e -> emin 53 1024 <= e' ->
  emin 53 1024 <= snd (shl_align m e e').
Proof.
  intros He He'. unfold shl_align. destruct (e' - e); cbn [snd]; assumption.
Qed.

Lemma normalize_positive (m e : Z) :
  0 < m -> emin 53 1024 <= e ->
  float_pos (binary_normalize 53 1024 m e false) = true.
Proof.
  intros Hm He. destruct m as [| p | p]; try lia.
  cbn [binary_normalize]. unfold binary_round.
  pose proof (shl_align_above_emin p e
                (fexp 53 1024 (Z.pos (digits2_pos p) + e)) He) as Ha.
  destruct (shl_align _ _ _) as [mz ez]. cbn [snd] in Ha.
  apply round_positive; [lia |]. apply Ha. unfold fexp. lia.
Qed.

Lemma normalize_above_emin (m e : Z) (szero : bool) :
  above_emin (binary_normalize 53 1024 m e szero).
Proof.
  destruct m as [| p | p]; cbn [binary_normalize]; [exact I | |];
    unfold binary_round; destruct (shl_align _ _ _) as [mz ez];
    apply round_above_emin.
Qed.

Lemma is_double_above_emin (x : double) : is_double x = true -> above_emin x.
Proof.
  destruct x as [| | | s m e]; cbn [above_emin]; try (intros; exact I).
  unfold is_double, valid_binary, bounded, canonical_mantissa, fexp.
  intros H. apply andb_prop in H as [H _]. apply Z.eqb_eq in H. lia.
Qed.

Lemma float_sub_above_emin (x y : double) :
  above_emin x -> above_emin y -> above_emin (float_sub x y).
Proof.
  destruct x as [sx | sx | | sx mx ex], y as [sy | sy | | sy my ey];
    cbn [float_sub SFsub above_emin]; intros Hx Hy; try exact I;
    try assumption;
    try (destruct sx, sy; exact I).
  apply normalize_above_emin.
Qed.

Lemma float_div_above_emin (x y : double) : above_emin (float_div x y).
Proof.
  destruct x as [sx | sx | | sx mx ex], y as [sy | sy | | sy my ey];
    cbn [float_div SFdiv above_emin]; try exact I.
  destruct (SFdiv_core_binary _ _ _ _ _ _) as [[mz ez] lz].
  apply round_above_emin.
Qed.

(** A subtraction whose first operand is the greater gives a double above
    zero: a difference of doubles is too coarse to be rounded to zero. *)
Lemma float_sub_positive (x y : double) :
  above_emin x -> above_emin y ->
  float_lt y x = true -> float_pos (float_sub x y) = true.
Proof.
  destruct x as [sx | sx | | sx mx ex], y as [sy | sy | | sy my ey];
    cbn [float_lt float_sub SFsub above_emin]; intros Hx Hy Hlt;
    try discriminate Hlt;
    try (destruct sx, sy; try discriminate Hlt; reflexivity);
    try (destruct sx; try discriminate Hlt; reflexivity);
    try (destruct sy; try discriminate Hlt; reflexivity).
  - apply negb_true_iff in Hlt.
    destruct sy; [reflexivity |]. exfalso.
    pose proof (finite_sign false my ey) as Hs. cbv beta iota in Hs.
    assert (Hle : Qle_bool 0 (float_value (S754_finite false my ey)) = true)
      by (apply Qle_bool_iff; lra).
    cbn [float_value] in Hle, Hlt. congruence.
  - apply negb_true_iff in Hlt.
    destruct sx; [| reflexivity]. exfalso.
    pose proof (finite_sign true mx ex) as Hs. cbv beta iota in Hs.
    assert (Hle : Qle_bool (float_value (S754_finite true mx ex)) 0 = true)
      by (apply Qle_bool_iff; lra).
    cbn [float_value] in Hle, Hlt. congruence.
  - apply negb_true_iff in Hlt. cbv zeta.
    apply normalize_positive; [| lia].
    pose proof (scaled_value sx mx ex (Z.min ex ey) (Z.le_min_l _ _)) as Ex.
    pose proof (scaled_value sy my ey (Z.min ex ey) (Z.le_min_r _ _)) as Ey.
    pose proof (two_power_pos (Z.min ex ey)) as Hp.
    set (X := cond_Zopp sx (Z.pos (fst (shl_align mx ex (Z.min ex ey))))) in *.
    set (Y := cond_Zopp sy (Z.pos (fst (shl_align my ey (Z.min ex ey))))) in *.
    destruct (Z_lt_le_dec Y X) as [H | H]; [lia | exfalso].
    assert (Hle : Qle_bool (float_value (S754_finite sx mx ex))
                           (float_value (S754_finite sy my ey)) = true).
    { apply Qle_bool_iff. rewrite <- Ex, <- Ey.
      apply Qmult_le_r; [exact Hp |]. now rewrite <- Zle_Qle. }
    congruence.
Qed.

Lemma float_pos_not_neg (x : double) :
  float_pos x = true -> float_neg x = false.
Proof. now destruct x as [[] | [] | | [] m e]. Qed.

(** ** The sleep that ends a tick *)

(** [__init__] gives the monitors used as examples. *)
Example init_monitor_1s :
  __init__ "./gpm_metrics_reader" 1000 (Some "out.csv") = Some monitor_1s.
Proof. vm_compute. reflexivity. Qed.

Lemma init_monitor_of (args : Args) (monitor : Monitor) :
  __init__ (arg_binary args) (arg_interval args) (Some (arg_output args))
  = Some monitor ->
  monitor = monitor_of args.
Proof.
  unfold __init__, float_of_int, monitor_of.
  destruct (nearest_double (arg_interval args)); congruence.
Qed.

(** The exponent of the interval that [__init__] sets is not below the
    least one. *)
Lemma init_above_emin (binary_path : string) (interval_ms : Z)
  (output_file : option string) (monitor : Monitor) :
  __init__ binary_path interval_ms output_file = Some monitor ->
  above_emin (interval_sec monitor).
Proof.
  unfold __init__. destruct (float_of_int interval_ms); [| discriminate].
  intros H. injection H as <-. cbn [interval_sec].
  apply float_div_above_emin.
Qed.

(** No monitor for an interval beyond all doubles, the first of which is
    [2 ^ 1024 - 2 ^ 970]. *)
Example init_overflow :
  __init__ "./gpm_metrics_reader" (2 ^ 1024 - 2 ^ 970) None = None /\
  exists monitor,
    __init__ "./gpm_metrics_reader" (2 ^ 1024 - 2 ^ 970 - 1) None
    = Some monitor.
Proof. split; [vm_compute; reflexivity | eexists; vm_compute; reflexivity]. Qed.

(** The interval of a tenth of a second is the double nearest to it, which
    is not a tenth. *)
Example interval_of_100_ms :
  exists monitor,
    __init__ "./gpm_metrics_reader" 100 None = Some monitor /\
    interval_sec monitor = S754_finite false 7205759403792794 (-56) /\
    (float_value (interval_sec monitor)
     == 3602879701896397 # 36028797018963968)%Q.
Proof. eexists. repeat split; vm_compute; reflexivity. Qed.

(** With that interval, a tick that took the double nearest to 0.03 s is
    followed by a sleep of the rounded difference. *)
Example sleep_of_100_ms_after_30_ms :
  forall monitor,
    __init__ "./gpm_metrics_reader" 100 None = Some monitor ->
    let took := double_of_Q (3 # 100) in
    let t := S754_finite false 5044031582654956 (-56) in
    sleep_time monitor (S754_zero false) took = Float t /\
    (float_value took == 1080863910568919 # 36028797018963968)%Q /\
    (float_value t == 1261007895663739 # 18014398509481984)%Q.
Proof.
  intros monitor H. vm_compute in H. injection H as <-.
  repeat split; vm_compute; reflexivity.
Qed.

(** An interval of 300 ms and a tick that took the double nearest to 0.3 s:
    the two are the same double, and there is no sleep. *)
Example no_sleep_of_300_ms_after_300_ms :
  forall monitor,
    __init__ "./gpm_metrics_reader" 300 None = Some monitor ->
    let took := double_of_Q (3 # 10) in
    took = interval_sec monitor /\
    sleep_time monitor (S754_zero false) took = Int 0.
Proof.
  intros monitor H. vm_compute in H. injection H as <-.
  split; vm_compute; reflexivity.
Qed.

(** C9: after a tick that wrote a sample, the time to sleep is the interval
    less the time the tick took, as the doubles that the program computes,
    and the integer 0 when that is not above zero.  It is never negative;
    once the tick took as long as the interval or longer it is exactly 0
    and [time.sleep] is not called; and when the tick took less, the rest
    of the interval is above zero and [time.sleep] is called with it, once,
    the interval and the clock readings being doubles (of which only that
    their exponents are not below the least one is used). *)
Theorem sleep_is_clamped_remainder :
  forall self duration_sec start_time env st stdout stderr,
    tk_running env = true ->
    limit_reached duration_sec start_time (tk_now env) = false ->
    tk_probe env = Completed 0 stdout stderr ->
    let elapsed := float_sub (tk_end env) (tk_iter_start env) in
    let rest := float_sub (interval_sec self) elapsed in
    let t := sleep_time self (tk_iter_start env) (tk_end env) in
    exists st2,
      record_sample env stdout (mkRunState (log st ++ [Invoke]) (iteration st))
      = Ok st2 /\
      tick self duration_sec start_time env st = pause self env st2 /\
      t = (if float_pos rest then Float rest else Int 0) /\
      lt_zero t = false /\
      (float_le (interval_sec self) elapsed = true ->
       t = Int 0 /\ pause self env st2 = (Running, st2)) /\
      (above_emin (interval_sec self) ->
       above_emin (tk_iter_start env) ->
       above_emin (tk_end env) ->
       float_lt elapsed (interval_sec self) = true ->
       float_pos rest = true /\
       t = Float rest /\
       pause self env st2
       = (sleep_status (tk_sleep env),
          mkRunState (log st2 ++ [Sleep (Float rest)]) (iteration st2))).
Proof.
  intros self duration_sec start_time env st stdout stderr
         Hrun Hlimit Hprobe elapsed rest t.
  destruct (record_sample_returns env stdout
              (mkRunState (log st ++ [Invoke]) (iteration st)))
    as (data & progress & _ & _ & _ & _ & Hrec).
  eexists. split; [exact Hrec |]. split.
  { unfold tick. rewrite Hrun, Hlimit, Hprobe. cbn [negb Z.eqb].
    now rewrite Hrec. }
  split; [reflexivity |]. split.
  { unfold t, sleep_time, max0. fold elapsed. fold rest.
    destruct (float_pos rest) eqn:E; [| reflexivity].
    now apply float_pos_not_neg. }
  split.
  - intros Hlate. apply float_sub_not_positive in Hlate. fold rest in Hlate.
    assert (Ht : t = Int 0).
    { unfold t, sleep_time, max0. fold elapsed. fold rest. now rewrite Hlate. }
    split; [exact Ht |]. unfold pause. fold t. now rewrite Ht.
  - intros Hinterval Hstart Hend Hearly.
    assert (Hrest : float_pos rest = true).
    { apply float_sub_positive; [exact Hinterval | | exact Hearly].
      now apply float_sub_above_emin. }
    assert (Ht : t = Float rest).
    { unfold t, sleep_time, max0. fold elapsed. fold rest. now rewrite Hrest. }
    split; [exact Hrest |]. split; [exact Ht |].
    unfold pause. fold t. rewrite Ht. cbn [gt_zero]. now rewrite Hrest.
Qed.

Lemma sleep_is_clamped_remainder_witness :
  sleep_time monitor_1s (double_of_Q 10) (double_of_Q (41 # 4))
  = Float (double_of_Q (3 # 4)) /\
  sleep_time monitor_1s (double_of_Q 10) (double_of_Q 12) = Int 0.
Proof.
  destruct (sleep_is_clamped_remainder monitor_1s None 0
              (tick_at 10 (Completed 0 "" "")) (start monitor_1s) "" ""
              eq_refl eq_refl eq_refl)
    as (st2 & _ & _ & _ & _ & _ & Hearly).
  destruct (sleep_is_clamped_remainder monitor_1s None 0
              (mkTick true 10 (double_of_Q 10) (Completed 0 "" "") ""
                      (double_of_Q 12) Slept)
              (start monitor_1s) "" "" eq_refl eq_refl eq_refl)
    as (st3 & _ & _ & _ & _ & Hlate & _).
  split.
  - destruct Hearly as (_ & Ht & _);
      [vm_compute; discriminate | vm_compute; discriminate
       | vm_compute; discriminate | vm_compute; reflexivity |].
    vm_compute in Ht |- *. exact Ht.
  - apply Hlate. vm_compute. reflexivity.
Defined.

Lemma tick_zero_duration (self : Monitor) (start_time : Q) (env : Tick)
  (st : RunState) :
  tick self (Some 0) start_time env st = tick self None start_time env st.
Proof. reflexivity. Qed.

Lemma loop_zero_duration (self : Monitor) (start_time : Q)
  (script : list Tick) (st : RunState) :
  loop self (Some 0) start_time script st
  = loop self None start_time script st.
Proof.
  revert st. induction script as [| env rest IH]; intros st; [reflexivity |].
  rewrite !loop_cons, tick_zero_duration.
  destruct (fst (tick self None start_time env st)); try reflexivity.
  apply IH.
Qed.

Lemma tick_unbounded_status (self : Monitor) (start_time : Q) (env : Tick)
  (st : RunState) :
  fst (tick self None start_time env st) <> LimitReached.
Proof.
  intros H. apply tick_limit_by_test in H. discriminate H.
Qed.

Lemma loop_unbounded_status (self : Monitor) (start_time : Q)
  (script : list Tick) (st : RunState) :
  fst (loop self None start_time script st) <> LimitReached.
Proof.
  revert st. induction script as [| env rest IH]; intros st; [discriminate |].
  rewrite loop_cons.
  pose proof (tick_unbounded_status self start_time env st) as Ht.
  destruct (fst (tick self None start_time env st)) eqn:E;
    try (rewrite E; discriminate); [apply IH | contradiction].
Qed.

(** C10: a duration of zero is no limit at all: the duration test fails at
    every tick, the run is the run without a duration, tick for tick, and it
    never ends by the limit. *)
Theorem zero_duration_unbounded :
  forall self start_time script,
    (forall now, limit_reached (Some 0) start_time now = false) /\
    run self (Some 0) start_time script = run self None start_time script /\
    fst (run self (Some 0) start_time script) <> LimitReached.
Proof.
  intros self start_time script.
  assert (Hrun : run self (Some 0) start_time script
                 = run self None start_time script).
  { unfold run. now rewrite loop_zero_duration. }
  split; [reflexivity |]. split; [exact Hrun |].
  rewrite Hrun.
  destruct (run_log self None start_time script) as (-> & _).
  apply loop_unbounded_status.
Qed.

(** * Further properties of the parser and the writer *)

(** ** Tokens *)

Lemma split_tokens (s : string) : Forall is_token (split s).
Proof.
  induction s as [| c r IH]; [constructor |].
  cbn [split]. destruct (isspace c) eqn:Hc; [exact IH |].
  assert (Hone : is_token (String c "")).
  { split; [reflexivity |]. cbn [any_char]. now rewrite Hc. }
  destruct r as [| c' r'].
  - now constructor.
  - destruct (isspace c') eqn:Hc'.
    + now constructor.
    + destruct (split (String c' r')) as [| h t]; [now constructor |].
      inversion IH as [| ? ? [Hh1 Hh2] Ht]; subst.
      constructor; [| assumption].
      split; [reflexivity |]. cbn [any_char]. now rewrite Hc, Hh2.
Qed.

Lemma join_no_space (l : list string) :
  Forall is_token l -> any_char isspace (join "_" l) = false.
Proof.
  unfold join. induction 1 as [| t l [_ Ht] Hl IH]; [reflexivity |].
  cbn [concat]. destruct l as [| u l']; [exact Ht |].
  rewrite !any_char_app, Ht, IH. reflexivity.
Qed.

Lemma Forall_nth_in_range {A} (P : A -> Prop) (l : list A) (n : nat) (d : A) :
  Forall P l -> (n < List.length l)%nat -> P (nth n l d).
Proof.
  intros H Hn. rewrite Forall_forall in H. apply H. now apply nth_In.
Qed.

Lemma Forall_slice (P : string -> Prop) (l : list string) (a b : Z) :
  Forall P l -> Forall P (slice l a b).
Proof.
  intros H. unfold slice.
  rewrite <- (firstn_skipn (Z.to_nat a) l) in H.
  apply Forall_app in H as [_ H].
  rewrite <- (firstn_skipn (Z.to_nat (b - a)) (skipn (Z.to_nat a) l)) in H.
  now apply Forall_app in H as [H _].
Qed.

Lemma last_as_nth (l : list string) :
  l <> [] -> last l "" = nth (List.length l - 1) l "".
Proof.
  intros Hne. destruct (exists_last Hne) as [l' [a ->]].
  rewrite last_last, length_app, app_nth2; cbn [List.length]; [| lia].
  now replace (List.length l' + 1 - 1 - List.length l')%nat with 0%nat by lia.
Qed.

(** ** The row that gives a reading *)

Lemma find_value_idx_found (ps : list string) (i k : Z) :
  find_value_idx i ps = Ok k -> 0 < i -> 0 < k ->
  i <= k < i + len ps /\
  float_parses (nth (Z.to_nat (k - i)) ps "") = true.
Proof.
  revert i. induction ps as [| p ps IH]; intros i Hf Hi Hk.
  - cbn in Hf. injection Hf as <-. lia.
  - cbn [find_value_idx] in Hf. unfold float in Hf. rewrite len_cons.
    destruct (float_parses p) eqn:Hp.
    + injection Hf as <-. replace (i - i) with 0 by lia.
      pose proof (len_nonneg ps). split; [lia | exact Hp].
    + destruct (IH (i + 1) Hf ltac:(lia) Hk) as [Hr Hv].
      split; [lia |].
      replace (Z.to_nat (k - i)) with (S (Z.to_nat (k - (i + 1)))) by lia.
      exact Hv.
Qed.

(** The fields of a reading, read off the tokens of its row. *)
Lemma row_body_fields (parts : list string) (m : MetricReading) :
  row_body parts = Ok (Some m) ->
  exists k,
    1 <= k /\ k + 1 < len parts /\
    metric_id m = nth 0 parts "" /\
    metric_name m = join "_" (slice parts 1 k) /\
    metric_value m = nth (Z.to_nat k) parts "" /\
    metric_unit m = nth (Z.to_nat (k + 1)) parts "" /\
    float_parses (nth (Z.to_nat k) parts "") = true.
Proof.
  unfold row_body. destruct parts as [| p0 ps]; [cbn; discriminate |].
  pose proof (len_nonneg ps) as Hps.
  rewrite getitem_in_range by (rewrite len_cons; lia). cbn [bind].
  unfold slice_from. change (Z.to_nat 1) with 1%nat. cbn [skipn].
  destruct (find_value_idx 1 ps) as [k |] eqn:Ek; [| discriminate].
  cbn [bind]. destruct (Z.ltb_spec 0 k) as [Hk | _]; [| discriminate].
  destruct (find_value_idx_found ps 1 k Ek ltac:(lia) Hk) as [Hr Hv].
  assert (Hnth : nth (Z.to_nat k) (p0 :: ps) "" = nth (Z.to_nat (k - 1)) ps "").
  { replace (Z.to_nat k) with (S (Z.to_nat (k - 1))) by lia. reflexivity. }
  rewrite getitem_in_range by (rewrite len_cons; lia). cbn [bind].
  rewrite getitem_last by discriminate.
  destruct (Z.ltb_spec (k + 1) (len (p0 :: ps))) as [Hlt | Hge].
  - rewrite getitem_in_range by lia. cbn [bind].
    destruct (String.eqb (last (p0 :: ps) "") "OK"); [| discriminate].
    intros [= <-]. cbn [metric_id metric_name metric_value metric_unit].
    exists k. rewrite Hnth. repeat split; try lia; assumption.
  - cbn [bind].
    destruct (String.eqb_spec (last (p0 :: ps) "") "OK") as [Hok | _];
      [| discriminate].
    exfalso. rewrite last_as_nth in Hok by discriminate.
    rewrite len_cons in Hge.
    replace (List.length (p0 :: ps) - 1)%nat with (Z.to_nat k) in Hok
      by (unfold len in *; cbn [List.length]; lia).
    rewrite Hnth, Hok in *. discriminate Hv.
Qed.

Lemma parse_row_shape (line : string) (m : MetricReading) :
  parse_row line = Ok (Some m) -> reading_shape m.
Proof.
  intros Hrow. pose proof (parse_row_id _ _ Hrow) as Hid.
  unfold parse_row in Hrow.
  destruct (row_gate (split line)) as [[] |]; cbn [bind] in Hrow;
    try discriminate.
  destruct (row_body (split line)) as [r | []] eqn:E; try discriminate.
  injection Hrow as ->.
  destruct (row_body_fields _ _ E)
    as (k & Hk1 & Hk2 & Ei & En & Ev & Eu & Hfloat).
  pose proof (split_tokens line) as Htok.
  assert (Hin : forall n, (n < List.length (split line))%nat ->
                          is_token (nth n (split line) "")).
  { intros n Hn. now apply Forall_nth_in_range. }
  unfold len in Hk2.
  destruct (Hin 0%nat ltac:(lia)) as [_ H0].
  destruct (Hin (Z.to_nat k) ltac:(lia)) as [_ Hkk].
  destruct (Hin (Z.to_nat (k + 1)) ltac:(lia)) as [Hu1 Hu2].
  unfold reading_shape. rewrite Ei, En, Ev, Eu in *.
  repeat split; try assumption.
  apply join_no_space. now apply Forall_slice.
Qed.

(** ** Inside the table *)

Lemma blank_line_no_row (line : string) :
  is_empty (strip line) = true -> parse_row line = Ok None.
Proof.
  intros Hb. unfold parse_row.
  now rewrite (split_blank _ (lstrip_empty _ Hb)).
Qed.

Lemma table_step_in_table (line : string) (ms : list MetricReading) :
  table_step (true, ms) line = Ok (true, (ms ++ row_readings line)%list).
Proof.
  unfold table_step, row_readings.
  destruct (is_header line); cbn [orb]; [now rewrite app_nil_r |].
  destruct (is_separator line); [now rewrite app_nil_r |].
  cbn [andb]. destruct (is_empty (strip line)) eqn:Hb; cbn [negb].
  - rewrite (blank_line_no_row _ Hb). now rewrite app_nil_r.
  - destruct (parse_row_total line) as [[m |] ->]; cbn [bind];
      [reflexivity | now rewrite app_nil_r].
Qed.

Lemma table_loop_in_table (lines : list string) (ms : list MetricReading) :
  table_loop (true, ms) lines
  = Ok (true, (ms ++ flat_map row_readings lines)%list).
Proof.
  revert ms. induction lines as [| line lines IH]; intros ms.
  - cbn. now rewrite app_nil_r.
  - cbn [table_loop flat_map]. rewrite table_step_in_table. cbn [bind].
    rewrite IH. now rewrite app_assoc.
Qed.

(** X1: a report without a header line (one holding [ID], [Name] and
    [Value]) gives no readings, whatever rows it holds. *)
Theorem no_header_no_readings :
  forall output,
    Forall (fun l => is_header l = false) (lines_of output) ->
    exists s, _parse_output output = Ok s /\ metrics s = [].
Proof.
  intros output Hnone.
  destruct (parse_output_returns output) as [b [ms [Hloop Hout]]].
  eexists. split; [exact Hout |]. cbn [metrics].
  rewrite (table_loop_before_header _ _ Hnone) in Hloop.
  now injection Hloop as _ <-.
Qed.

Lemma no_header_no_readings_witness :
  exists s, _parse_output ("GPU 0: NVIDIA H100" ++ NL
                           ++ "3 Power Usage 42.5 W OK") = Ok s /\
            metrics s = [].
Proof.
  apply no_header_no_readings. now repeat constructor.
Defined.

(** X2: the readings of a report are those of the lines after its first
    header line, line by line and in their order; a later header or a
    separator line gives none, and the lines before the header give none. *)
Theorem readings_follow_header :
  forall output pre header post,
    lines_of output = (pre ++ header :: post)%list ->
    Forall (fun l => is_header l = false) pre ->
    is_header header = true ->
    exists s, _parse_output output = Ok s /\
              metrics s = flat_map row_readings post.
Proof.
  intros output pre header post Hlines Hpre Hh.
  destruct (parse_output_returns output) as [b [ms [Hloop Hout]]].
  eexists. split; [exact Hout |]. cbn [metrics].
  rewrite Hlines, table_loop_app in Hloop.
  rewrite (table_loop_before_header _ _ Hpre) in Hloop.
  cbn [bind table_loop] in Hloop.
  assert (Hstep : table_step (false, []) header = Ok (true, [])).
  { unfold table_step. now rewrite Hh. }
  rewrite Hstep in Hloop. cbn [bind] in Hloop.
  rewrite table_loop_in_table in Hloop. now injection Hloop as _ <-.
Qed.

Lemma readings_follow_header_witness :
  exists s, _parse_output report_full = Ok s /\
            metrics s
            = flat_map row_readings
                ["-------------------------------------";
                 "3    Power Usage   42.5    W     OK";
                 "4    broken row";
                 "6    Mem BW Util   0.5     %     OK"].
Proof.
  apply (readings_follow_header report_full
           ["GPU 0: NVIDIA H100"; "  MIG Slice  GI: 1, CI: 0"]
           "ID   Name          Value   Unit  Status").
  - reflexivity.
  - now repeat constructor.
  - reflexivity.
Defined.

(** X3: every reading of a parsed sample has an id made of digits, a value
    that [float] accepts and a unit that is not empty, and none of its four
    fields holds white space. *)
Theorem readings_well_shaped :
  forall output s m,
    _parse_output output = Ok s -> In m (metrics s) -> reading_shape m.
Proof.
  intros output s m Hs Hm.
  destruct (table_loop_adds (lines_of output) false) as [b [new [H Hnew]]].
  unfold _parse_output in Hs. cbv zeta in Hs.
  rewrite (H []) in Hs. cbn [bind app snd] in Hs. injection Hs as <-.
  cbn [metrics] in Hm. rewrite Forall_forall in Hnew.
  destruct (Hnew m Hm) as [line [_ Hrow]].
  now apply parse_row_shape with line.
Qed.

Lemma readings_well_shaped_witness :
  reading_shape (mkReading "8" "Mem_BW_Util" "42.5" "OK").
Proof.
  apply (readings_well_shaped
           ("ID Name Value" ++ NL ++ "8 Mem BW Util 42.5 OK")
           (mkSample "0" "Unknown" "" ""
                     [mkReading "8" "Mem_BW_Util" "42.5" "OK"])).
  - reflexivity.
  - now left.
Defined.

(** ** The identity of a parsed sample *)

Lemma all_chars_none (p q : ascii -> bool) (s : string) :
  (forall c, p c = true -> q c = false) ->
  all_chars p s = true -> any_char q s = false.
Proof.
  intros Hpq. induction s as [| c r IH]; [reflexivity |].
  cbn [all_chars any_char]. intros H. apply andb_true_iff in H as [Hc Hr].
  now rewrite (Hpq c Hc), IH.
Qed.

Lemma match_device_name_one_line (line i n : string) :
  Re.match_device line = Some (i, n) ->
  any_char (fun c => Ascii.eqb c LF) n = false.
Proof.
  unfold Re.match_device.
  destruct (Re.after_prefix "GPU " line) as [r |]; [| discriminate].
  destruct (span isdecimal r) as [digits r1].
  destruct (is_empty digits); [discriminate |].
  destruct (Re.after_prefix ": " r1) as [r2 |]; [| discriminate].
  pose proof (span_all (fun c => negb (Ascii.eqb c LF)) r2) as Hall.
  destruct (span _ r2) as [rest r3]. cbn [fst] in Hall.
  destruct (is_empty rest); [discriminate |].
  intros [= _ <-]. revert Hall. apply all_chars_none.
  intros c Hc. now apply negb_true_iff in Hc.
Qed.

Lemma identity_step_paired (st : Identity) (line : string) :
  identity_paired st -> identity_paired (identity_step st line).
Proof.
  intros [Hn Hp]. rewrite identity_step_view. unfold identity_paired. cbn.
  split.
  - destruct (device_of line) as [[i n] |] eqn:Ed; [| exact Hn].
    intros x [= <-]. unfold device_of in Ed.
    destruct (startswith line "GPU "); [| discriminate].
    now apply match_device_name_one_line with line i.
  - destruct (partition_of line) as [[g c] |]; [| exact Hp].
    split; discriminate.
Qed.

Lemma find_identity_paired (lines : list string) :
  identity_paired (find_identity lines).
Proof.
  unfold find_identity.
  assert (H0 : identity_paired no_identity).
  { split; [cbn; discriminate | now split]. }
  revert H0. generalize no_identity.
  induction lines as [| line lines IH]; intros st Hst; [exact Hst |].
  cbn [fold_left]. apply IH. now apply identity_step_paired.
Qed.

(** X4: in every parsed sample the device id is a non-empty run of decimal
    digits, the device name is not empty and holds no line feed, and the two
    partition identifiers are either both empty or both non-empty runs of
    decimal digits. *)
Theorem identity_well_shaped :
  forall output s,
    _parse_output output = Ok s ->
    (is_empty (device_id s) = false /\
     all_chars isdecimal (device_id s) = true) /\
    (is_empty (device_name s) = false /\
     any_char (fun c => Ascii.eqb c LF) (device_name s) = false) /\
    ((gpu_instance_id s = "" /\ compute_instance_id s = "") \/
     (is_empty (gpu_instance_id s) = false /\
      all_chars isdecimal (gpu_instance_id s) = true /\
      is_empty (compute_instance_id s) = false /\
      all_chars isdecimal (compute_instance_id s) = true)).
Proof.
  intros output s Hs.
  destruct (parse_output_returns output) as [b [ms [_ Hout]]].
  rewrite Hout in Hs. injection Hs as <-.
  cbn [device_id device_name gpu_instance_id compute_instance_id].
  destruct (find_identity_ok (lines_of output)) as (Hi & Hn & Hg & Hc).
  destruct (find_identity_paired (lines_of output)) as (Hline & Hpair).
  split; [| split].
  - destruct (id_device_id _) as [i |]; [| now split].
    destruct (Hi i eq_refl) as [Hne Hall].
    now rewrite or_default_some by assumption.
  - destruct (id_device_name _) as [n |]; [| now split].
    rewrite or_default_some by now apply Hn.
    split; [now apply Hn | now apply Hline].
  - destruct (id_gpu_instance_id _) as [g |] eqn:Eg;
      destruct (id_compute_instance_id _) as [c |] eqn:Ec.
    + right. destruct (Hg g eq_refl) as [Hg1 Hg2].
      destruct (Hc c eq_refl) as [Hc1 Hc2].
      now rewrite !or_default_some by assumption.
    + destruct Hpair as [_ Hpair]. now specialize (Hpair eq_refl).
    + destruct Hpair as [Hpair _]. now specialize (Hpair eq_refl).
    + now left.
Qed.

Lemma identity_well_shaped_witness :
  (is_empty "0" = false /\ all_chars isdecimal "0" = true) /\
  (is_empty "NVIDIA H100" = false /\
   any_char (fun c => Ascii.eqb c LF) "NVIDIA H100" = false) /\
  (("1" = "" /\ "0" = "") \/
   (is_empty "1" = false /\ all_chars isdecimal "1" = true /\
    is_empty "0" = false /\ all_chars isdecimal "0" = true)).
Proof.
  apply (identity_well_shaped
           ("GPU 0: NVIDIA H100" ++ NL ++ "  MIG Slice  GI: 1, CI: 0")
           (mkSample "0" "NVIDIA H100" "1" "0" [])).
  reflexivity.
Defined.

(** ** White space around the report *)

Lemma lstrip_all (p : ascii -> bool) (s : string) :
  all_chars p s = true -> lstrip_by p s = "".
Proof.
  induction s as [| c r IH]; [reflexivity |].
  cbn [all_chars lstrip_by]. intros H.
  apply andb_true_iff in H as [-> Hr]. auto.
Qed.

Lemma rstrip_all (p : ascii -> bool) (s : string) :
  all_chars p s = true -> rstrip_by p s = "".
Proof.
  induction s as [| c r IH]; [reflexivity |].
  cbn [all_chars rstrip_by]. intros H.
  apply andb_true_iff in H as [-> Hr]. now rewrite (IH Hr).
Qed.

Lemma lstrip_app_l (p : ascii -> bool) (a s : string) :
  all_chars p a = true -> lstrip_by p (a ++ s) = lstrip_by p s.
Proof.
  induction a as [| c r IH]; [reflexivity |].
  cbn [all_chars append lstrip_by]. intros H.
  apply andb_true_iff in H as [-> Hr]. auto.
Qed.

Lemma rstrip_app_r (p : ascii -> bool) (s b : string) :
  all_chars p b = true -> rstrip_by p (s ++ b) = rstrip_by p s.
Proof.
  intros Hb. induction s as [| c r IH]; [now apply rstrip_all |].
  cbn [append rstrip_by]. now rewrite IH.
Qed.

Lemma lstrip_app_r (p : ascii -> bool) (s b : string) :
  all_chars p b = true ->
  lstrip_by p (s ++ b)
  = if all_chars p s then "" else lstrip_by p s ++ b.
Proof.
  intros Hb. induction s as [| c r IH].
  - cbn. now apply lstrip_all.
  - cbn [append lstrip_by all_chars]. destruct (p c); [exact IH | reflexivity].
Qed.

Lemma strip_padded (a s b : string) :
  all_chars isspace a = true -> all_chars isspace b = true ->
  strip (a ++ s ++ b) = strip s.
Proof.
  intros Ha Hb. unfold strip.
  rewrite (lstrip_app_l _ _ _ Ha), (lstrip_app_r _ _ _ Hb).
  destruct (all_chars isspace s) eqn:Hs.
  - now rewrite (lstrip_all _ _ Hs).
  - now apply rstrip_app_r.
Qed.

(** X5: white space before and after the report (blank lines included)
    does not change the sample. *)
Theorem surrounding_space_ignored :
  forall before output after,
    all_chars isspace before = true ->
    all_chars isspace after = true ->
    _parse_output (before ++ output ++ after) = _parse_output output.
Proof.
  intros before output after Ha Hb.
  unfold _parse_output, lines_of. now rewrite (strip_padded _ _ _ Ha Hb).
Qed.

Lemma surrounding_space_ignored_witness :
  _parse_output ((NL ++ "  ") ++ report_full ++ (" " ++ NL ++ NL))
  = _parse_output report_full.
Proof.
  apply surrounding_space_ignored; reflexivity.
Defined.

(** ** The lines of the report *)

Lemma split_on_not_nil (sep : ascii) (s : string) : split_on sep s <> [].
Proof.
  destruct s as [| c r]; [discriminate |].
  cbn [split_on]. destruct (Ascii.eqb c sep); [discriminate |].
  destruct (split_on sep r); discriminate.
Qed.

Lemma concat_cons (sep x : string) (l : list string) :
  l <> [] -> String.concat sep (x :: l) = x ++ sep ++ String.concat sep l.
Proof. destruct l; [congruence | reflexivity]. Qed.

Lemma split_on_rejoin (sep : ascii) (s : string) :
  String.concat (String sep "") (split_on sep s) = s.
Proof.
  induction s as [| c r IH]; [reflexivity |].
  cbn [split_on]. destruct (Ascii.eqb_spec c sep) as [-> | Hne].
  - rewrite concat_cons by apply split_on_not_nil. cbn [append].
    now rewrite IH.
  - pose proof (split_on_not_nil sep r) as Hnil.
    destruct (split_on sep r) as [| h t]; [congruence |].
    destruct t as [| u t'].
    + cbn [concat] in *. now rewrite IH.
    + rewrite concat_cons in IH |- * by discriminate.
      rewrite <- IH. reflexivity.
Qed.

Lemma split_on_no_sep (sep : ascii) (s : string) :
  Forall (fun l => any_char (fun c => Ascii.eqb c sep) l = false)
         (split_on sep s).
Proof.
  induction s as [| c r IH]; [now repeat constructor |].
  cbn [split_on]. destruct (Ascii.eqb c sep) eqn:Hc.
  - now constructor.
  - pose proof (split_on_not_nil sep r) as Hnil.
    destruct (split_on sep r) as [| h t]; [congruence |].
    inversion IH as [| ? ? Hh Ht]; subst. constructor; [| assumption].
    cbn [any_char]. now rewrite Hc, Hh.
Qed.

(** X6: the lines the parser works on are at least one, none holds a line
    feed, and joined by line feeds they give back the report without the
    white space around it: no character of it is lost or moved. *)
Theorem lines_rejoin :
  forall output,
    lines_of output <> [] /\
    Forall (fun l => any_char (fun c => Ascii.eqb c LF) l = false)
           (lines_of output) /\
    String.concat NL (lines_of output) = strip output.
Proof.
  intros output. unfold lines_of. split; [apply split_on_not_nil |].
  split; [apply split_on_no_sep | apply split_on_rejoin].
Qed.

(** ** The rows as text *)

Lemma count_char_app (c : ascii) (a b : string) :
  count_char c (a ++ b) = (count_char c a + count_char c b)%nat.
Proof.
  induction a as [| x r IH]; [reflexivity |].
  cbn [append count_char]. rewrite IH. lia.
Qed.

Lemma count_char_none (c : ascii) (s : string) :
  any_char (fun x => Ascii.eqb x c) s = false -> count_char c s = 0%nat.
Proof.
  induction s as [| x r IH]; [reflexivity |].
  cbn [any_char count_char]. intros H.
  apply orb_false_iff in H as [-> Hr]. now rewrite IH.
Qed.

Lemma any_char_weaken (p q : ascii -> bool) (s : string) :
  (forall c, q c = true -> p c = true) ->
  any_char p s = false -> any_char q s = false.
Proof.
  intros Hqp. induction s as [| c r IH]; [reflexivity |].
  cbn [any_char]. intros H. apply orb_false_iff in H as [Hc Hr].
  rewrite (IH Hr), orb_false_r.
  destruct (q c) eqn:Hq; [| reflexivity]. now rewrite (Hqp c Hq) in Hc.
Qed.

Lemma no_space_no_line_feed (s : string) :
  any_char isspace s = false -> count_char LF s = 0%nat.
Proof.
  intros H. apply count_char_none. revert H. apply any_char_weaken.
  intros c Hc. apply Ascii.eqb_eq in Hc. now subst c.
Qed.

Lemma digits_no_line_feed (s : string) :
  all_chars isdecimal s = true -> count_char LF s = 0%nat.
Proof.
  intros H. apply count_char_none. revert H. apply all_chars_none.
  intros c Hc. destruct (Ascii.eqb_spec c LF) as [-> |]; [| reflexivity].
  discriminate Hc.
Qed.

Lemma sink_text_cons (x : string) (l : list string) :
  String.concat "" (x :: l) = x ++ String.concat "" l.
Proof.
  destruct l as [| y l]; [| reflexivity].
  cbn [concat]. induction x as [| c r IH]; [reflexivity |].
  cbn [append]. now rewrite <- IH.
Qed.

(** What the parser guarantees of the fields that a row is made of. *)
Lemma parse_output_fields (output : string) (data : Sample) :
  _parse_output output = Ok data ->
  count_char LF (device_id data) = 0%nat /\
  count_char LF (device_name data) = 0%nat /\
  count_char LF (gpu_instance_id data) = 0%nat /\
  count_char LF (compute_instance_id data) = 0%nat /\
  Forall reading_shape (metrics data).
Proof.
  intros Hs.
  destruct (table_loop_adds (lines_of output) false) as [b [new [H Hnew]]].
  unfold _parse_output in Hs. cbv zeta in Hs.
  rewrite (H []) in Hs. cbn [bind app snd] in Hs. injection Hs as <-.
  cbn [device_id device_name gpu_instance_id compute_instance_id metrics].
  destruct (find_identity_ok (lines_of output)) as (Hi & Hn & Hg & Hc).
  destruct (find_identity_paired (lines_of output)) as (Hline & _).
  repeat split.
  - destruct (id_device_id _) as [i |]; [| reflexivity].
    destruct (Hi i eq_refl) as [Hne Hall].
    rewrite or_default_some by assumption. now apply digits_no_line_feed.
  - destruct (id_device_name _) as [n |]; [| reflexivity].
    rewrite or_default_some by now apply Hn.
    apply count_char_none. now apply Hline.
  - destruct (id_gpu_instance_id _) as [g |]; [| reflexivity].
    destruct (Hg g eq_refl) as [Hne Hall].
    rewrite or_default_some by assumption. now apply digits_no_line_feed.
  - destruct (id_compute_instance_id _) as [c |]; [| reflexivity].
    destruct (Hc c eq_refl) as [Hne Hall].
    rewrite or_default_some by assumption. now apply digits_no_line_feed.
  - eapply Forall_impl; [| exact Hnew].
    intros m [line [_ Hm]]. now apply parse_row_shape with line.
Qed.

Lemma row_text_one_line (timestamp : string) (data : Sample)
  (m : MetricReading) (rest : string) :
  count_char LF timestamp = 0%nat ->
  count_char LF (device_id data) = 0%nat ->
  count_char LF (device_name data) = 0%nat ->
  count_char LF (gpu_instance_id data) = 0%nat ->
  count_char LF (compute_instance_id data) = 0%nat ->
  reading_shape m ->
  count_char LF (String.concat "" (writes (row_writes timestamp data m)) ++ rest)
  = S (count_char LF rest).
Proof.
  intros Ht Hd Hn Hg Hc (_ & _ & _ & Hi & Hna & Hv & Hu).
  apply no_space_no_line_feed in Hi, Hna, Hv, Hu.
  unfold row_writes. cbn [writes]. rewrite !sink_text_cons.
  rewrite !count_char_app, Ht, Hd, Hn, Hg, Hc, Hi, Hna, Hv, Hu.
  reflexivity.
Qed.

(** X7: the rows of a parsed sample, written with a timestamp that holds
    no line feed, are exactly one line of text for each reading. *)
Theorem one_line_per_reading :
  forall output data timestamp,
    _parse_output output = Ok data ->
    count_char LF timestamp = 0%nat ->
    count_char LF (sink_text (_write_csv_row [] timestamp data))
    = List.length (metrics data).
Proof.
  intros output data timestamp Hs Ht.
  destruct (parse_output_fields _ _ Hs) as (Hd & Hn & Hg & Hc & Hms).
  unfold sink_text, _write_csv_row. cbn [app].
  rewrite writes_app. cbn [writes]. rewrite app_nil_r.
  induction Hms as [| m ms Hm _ IH]; [reflexivity |].
  cbn [flat_map List.length]. rewrite writes_app.
  assert (Happ : forall l1 l2, String.concat "" (l1 ++ l2)
                               = String.concat "" l1 ++ String.concat "" l2).
  { induction l1 as [| x l1 IHl]; intros l2; [reflexivity |].
    cbn [app]. rewrite !sink_text_cons, IHl.
    clear. induction x as [| c r IHx]; [reflexivity |].
    cbn [append]. now rewrite IHx. }
  rewrite Happ, (row_text_one_line _ _ _ _ Ht Hd Hn Hg Hc Hm). now rewrite IH.
Qed.

Lemma one_line_per_reading_witness :
  count_char LF
    (sink_text (_write_csv_row [] "2026-01-01T00:00:00"
                  (mkSample "0" "NVIDIA H100" "1" "0"
                     [mkReading "3" "Power_Usage" "42.5" "W";
                      mkReading "6" "Mem_BW_Util" "0.5" "%"])))
  = 2%nat.
Proof.
  apply (one_line_per_reading report_full); reflexivity.
Defined.

(** * Further properties of the loop *)

(** ** Counting in the log *)

Lemma count_effects_app (p : Effect -> bool) (l1 l2 : list Effect) :
  count_effects p (l1 ++ l2) = count_effects p l1 + count_effects p l2.
Proof. unfold count_effects. rewrite filter_app, length_app. lia. Qed.

Lemma count_effects_rows (p : Effect -> bool) (timestamp : string)
  (data : Sample) (ms : list MetricReading) :
  (forall s, p (Write s) = false) ->
  count_effects p (flat_map (row_writes timestamp data) ms) = 0.
Proof.
  intros Hp. induction ms as [| m ms IH]; [reflexivity |].
  cbn [flat_map]. rewrite count_effects_app, IH.
  unfold row_writes, count_effects. cbn [filter]. now rewrite !Hp.
Qed.

Lemma sleeps_app (l1 l2 : list Effect) :
  sleeps (l1 ++ l2) = (sleeps l1 ++ sleeps l2)%list.
Proof.
  induction l1 as [| e l1 IH]; [reflexivity |].
  destruct e; cbn [app sleeps]; now rewrite IH.
Qed.

Lemma sleeps_rows (timestamp : string) (data : Sample)
  (ms : list MetricReading) :
  sleeps (flat_map (row_writes timestamp data) ms) = [].
Proof. induction ms as [| m ms IH]; [reflexivity | exact IH]. Qed.

Lemma pending_from_app (acc : list string) (l1 l2 : list Effect) :
  pending_from acc (l1 ++ l2) = pending_from (pending_from acc l1) l2.
Proof.
  revert acc. induction l1 as [| e l1 IH]; intros acc; [reflexivity |].
  destruct e; cbn [app pending_from]; apply IH.
Qed.

Lemma pending_flushed (acc : list string) (l : list Effect) :
  pending_from acc (l ++ [Flush]) = [].
Proof. now rewrite pending_from_app. Qed.

(** ** The shape of a tick *)

Section Ticks.

Variable self : Monitor.
Variable duration_sec : option Z.
Variable start_time : Q.

Lemma pause_as_log (env : Tick) (st : RunState) :
  pause self env st
  = (pause_status self env,
     mkRunState (log st ++ pause_of self env) (iteration st)).
Proof.
  unfold pause, pause_of, pause_status. cbv zeta.
  destruct (gt_zero _); [reflexivity |].
  rewrite app_nil_r. now destruct st.
Qed.

Lemma record_sample_as_log (env : Tick) (stdout : string) (st : RunState) :
  exists data,
    _parse_output stdout = Ok data /\
    record_sample env stdout st
    = Ok (mkRunState
            (log st
             ++ flat_map (row_writes (tk_timestamp env) data) (metrics data)
             ++ [Flush] ++ progress_of (iteration st + 1))
            (iteration st + 1)).
Proof.
  destruct (parse_output_returns stdout) as [b [ms [_ Hout]]].
  eexists. split; [exact Hout |].
  unfold record_sample, _write_csv_row, progress_of. rewrite Hout.
  cbn [bind]. destruct (_ =? 0); [| reflexivity].
  now rewrite <- !app_assoc.
Qed.

Lemma tick_cases (env : Tick) (st : RunState) :
  exists status extra n,
    tick self duration_sec start_time env st
    = (status, mkRunState (log st ++ extra) n) /\
    tick_case self duration_sec start_time env st status extra n.
Proof.
  unfold tick. destruct (tk_running env) eqn:Hrun; cbn [negb].
  2: { exists Cancelled, [], (iteration st). rewrite app_nil_r.
       split; [now destruct st | now constructor]. }
  destruct (limit_reached _ _ _) eqn:Hlimit.
  { eexists LimitReached, [_], (iteration st).
    split; [reflexivity | now constructor]. }
  destruct (tk_probe env) as [rc out err | | |] eqn:Hprobe.
  - destruct (Z.eqb_spec rc 0) as [-> | Hrc].
    + destruct (record_sample_as_log env out
                  (mkRunState (log st ++ [Invoke]) (iteration st)))
        as (data & Hdata & ->).
      rewrite pause_as_log. cbn [log iteration].
      eexists (pause_status self env), _, (iteration st + 1). split.
      * rewrite <- !app_assoc. cbn [app]. reflexivity.
      * now apply case_sample with out err.
    + eexists Failed, [_; _], (iteration st). unfold say.
      cbn [log iteration]. rewrite <- app_assoc. split; [reflexivity |].
      now apply case_exit with rc out err.
  - eexists Running, [_; _], (iteration st). unfold say.
    cbn [log iteration]. rewrite <- app_assoc.
    split; [reflexivity | now constructor].
  - eexists Failed, [_; _], (iteration st). unfold say.
    cbn [log iteration]. rewrite <- app_assoc.
    split; [reflexivity | now constructor].
  - eexists Crashed, [_], (iteration st).
    split; [reflexivity | now constructor].
Qed.

(** A property of the state that every tick keeps holds after the loop. *)
Lemma loop_keeps (P : RunState -> Prop) :
  (forall env st, P st ->
                  P (snd (tick self duration_sec start_time env st))) ->
  forall script st,
    P st -> P (snd (loop self duration_sec start_time script st)).
Proof.
  intros Hstep script. induction script as [| env rest IH]; intros st Hst.
  - exact Hst.
  - rewrite loop_cons. specialize (Hstep env st Hst).
    destruct (fst (tick self duration_sec start_time env st));
      try exact Hstep.
    now apply IH.
Qed.

(** The loop over two scripts in a row. *)
Lemma loop_app (s1 s2 : list Tick) (st : RunState) :
  loop self duration_sec start_time (s1 ++ s2) st =
  match fst (loop self duration_sec start_time s1 st) with
  | Running =>
      loop self duration_sec start_time s2
           (snd (loop self duration_sec start_time s1 st))
  | _ => loop self duration_sec start_time s1 st
  end.
Proof.
  revert st. induction s1 as [| env rest IH]; intros st; [reflexivity |].
  cbn [app]. rewrite !loop_cons.
  destruct (fst (tick self duration_sec start_time env st)) eqn:E;
    try (rewrite E; reflexivity).
  apply IH.
Qed.

End Ticks.

(** ** Runs over longer scripts *)

(** A run is its loop followed by the closing effects. *)
Lemma run_closing (self : Monitor) (duration_sec : option Z)
  (start_time : Q) (script : list Tick) :
  let r := loop self duration_sec start_time script (start self) in
  run self duration_sec start_time script
  = (fst r,
     mkRunState
       (log (snd r) ++ closing_of self (fst r) (iteration (snd r)))
       (iteration (snd r))).
Proof.
  cbv zeta. unfold run.
  destruct (loop self duration_sec start_time script (start self))
    as [status st].
  cbn [fst snd].
  destruct status; cbn [closing_of];
    try (unfold finally, say, total_notice; cbn [log iteration];
         destruct (has_output_file self); cbn [app];
         now rewrite <- ?app_assoc).
  rewrite app_nil_r. now destruct st.
Qed.

Lemma start_counts (self : Monitor) :
  sleeps (log (start self)) = [] /\
  invocations (log (start self)) = 0 /\
  iteration (start self) = 0.
Proof.
  unfold start, _write_csv_header. cbn [log iteration].
  destruct (output_file self) as [f |]; [destruct (is_empty f) |];
    now repeat split.
Qed.

Lemma closing_counts (self : Monitor) (status : Status) (n : Z) :
  sleeps (closing_of self status n) = [] /\
  invocations (closing_of self status n) = 0.
Proof.
  destruct status; cbn [closing_of]; try (now split);
    destruct (has_output_file self); now split.
Qed.

Lemma flushes_nonneg (l : list Effect) : 0 <= flushes l.
Proof.
  induction l as [| e l IH]; [reflexivity |].
  destruct e; cbn [flushes]; lia.
Qed.

(** X8: a run that has ended ignores the ticks offered after it; a run
    still going keeps what it has logged when more ticks come, the new
    effects follow the old ones and the counter does not go down. *)
Theorem run_extends :
  forall self duration_sec start_time s1 s2,
    let r1 := run self duration_sec start_time s1 in
    let r2 := run self duration_sec start_time (s1 ++ s2) in
    (fst r1 <> Running -> r2 = r1) /\
    (fst r1 = Running ->
     (exists more, log (snd r2) = (log (snd r1) ++ more)%list) /\
     iteration (snd r1) <= iteration (snd r2)).
Proof.
  intros self duration_sec start_time s1 s2. cbv zeta.
  destruct (run_log self duration_sec start_time s1)
    as (Hst1 & Hit1 & c1 & Hlog1 & _ & _ & Hrun1 & _).
  split.
  - intros Hended. rewrite Hst1 in Hended. unfold run.
    rewrite loop_app.
    destruct (fst (loop self duration_sec start_time s1 (start self)));
      [contradiction | reflexivity ..].
  - intros Hgoing. rewrite Hst1 in Hgoing.
    rewrite (Hrun1 Hgoing), app_nil_r in Hlog1.
    destruct (run_log self duration_sec start_time (s1 ++ s2))
      as (_ & Hit2 & c2 & Hlog2 & _).
    rewrite loop_app, Hgoing in Hlog2, Hit2.
    destruct (loop_adds self duration_sec start_time s2
                (snd (loop self duration_sec start_time s1 (start self))))
      as (extra & Hextra & _ & Hflush).
    split.
    + exists (extra ++ c2)%list.
      now rewrite Hlog2, Hextra, Hlog1, app_assoc.
    + rewrite Hit2, Hit1. pose proof (flushes_nonneg extra). lia.
Qed.

Lemma run_extends_witness :
  run monitor_1s None 0
      ([tick_at 0 FileNotFoundError] ++ [tick_at 1 TimeoutExpired])
  = run monitor_1s None 0 [tick_at 0 FileNotFoundError].
Proof.
  apply (run_extends monitor_1s None 0 [tick_at 0 FileNotFoundError]
                     [tick_at 1 TimeoutExpired]).
  vm_compute. discriminate.
Defined.

(** ** Counters *)

Section Counters.

Variable self : Monitor.
Variable duration_sec : option Z.
Variable start_time : Q.

Lemma sleeps_progress (n : Z) : sleeps (progress_of n) = [].
Proof. unfold progress_of. now destruct (_ =? 0). Qed.

Lemma invocations_progress (n : Z) : invocations (progress_of n) = 0.
Proof. unfold progress_of. now destruct (_ =? 0). Qed.

Lemma invocations_pause (env : Tick) : invocations (pause_of self env) = 0.
Proof. unfold pause_of. cbv zeta. now destruct (gt_zero _). Qed.

Lemma sleeps_pause (env : Tick) :
  (List.length (sleeps (pause_of self env)) <= 1)%nat.
Proof. unfold pause_of. cbv zeta. destruct (gt_zero _); cbn; lia. Qed.

(** What one tick does to the three counts. *)
Lemma tick_counts (env : Tick) (st : RunState) :
  let st' := snd (tick self duration_sec start_time env st) in
  exists ds di dv,
    Z.of_nat (List.length (sleeps (log st')))
    = Z.of_nat (List.length (sleeps (log st))) + ds /\
    iteration st' = iteration st + di /\
    invocations (log st') = invocations (log st) + dv /\
    0 <= ds <= di /\ di <= dv <= 1.
Proof.
  cbv zeta.
  destruct (tick_cases self duration_sec start_time env st)
    as (status & extra & n & -> & Hcase).
  cbn [snd log iteration].
  rewrite sleeps_app, length_app, invocations_app, Nat2Z.inj_add.
  destruct Hcase;
    try (exists 0, 0, 0; cbn; repeat split; lia);
    try (exists 0, 0, 1; cbn; repeat split; lia).
  exists (Z.of_nat (List.length (sleeps (pause_of self env)))), 1, 1.
  cbn [sleeps invocations].
  rewrite !sleeps_app, !invocations_app, sleeps_rows, invocations_rows,
    sleeps_progress, invocations_progress, invocations_pause.
  cbn [sleeps invocations app]. pose proof (sleeps_pause env).
  repeat split; lia.
Qed.

Lemma loop_counts (script : list Tick) (st : RunState) :
  let st' := snd (loop self duration_sec start_time script st) in
  exists ds di dv,
    Z.of_nat (List.length (sleeps (log st')))
    = Z.of_nat (List.length (sleeps (log st))) + ds /\
    iteration st' = iteration st + di /\
    invocations (log st') = invocations (log st) + dv /\
    0 <= ds <= di /\ di <= dv <= len script.
Proof.
  cbv zeta. revert st. induction script as [| env rest IH]; intros st.
  - exists 0, 0, 0. cbn. repeat split; lia.
  - rewrite loop_cons, len_cons. pose proof (len_nonneg rest) as Hrest.
    destruct (tick_counts env st) as (ds & di & dv & Hs & Hi & Hv & H1 & H2).
    destruct (fst (tick self duration_sec start_time env st));
      try (exists ds, di, dv; repeat split; lia).
    destruct (IH (snd (tick self duration_sec start_time env st)))
      as (ds' & di' & dv' & Hs' & Hi' & Hv' & H1' & H2').
    exists (ds + ds'), (di + di'), (dv + dv'). repeat split; lia.
Qed.

End Counters.

(** X9: in every run the probe is started at most once for each tick
    offered, no more samples are counted than probe runs, and no more
    sleeps happen than samples were counted: only a tick that wrote a sample
    sleeps. *)
Theorem run_counts :
  forall self duration_sec start_time script,
    let st := snd (run self duration_sec start_time script) in
    0 <= Z.of_nat (List.length (sleeps (log st))) /\
    Z.of_nat (List.length (sleeps (log st))) <= iteration st /\
    iteration st <= invocations (log st) /\
    invocations (log st) <= len script.
Proof.
  intros self duration_sec start_time script. cbv zeta.
  rewrite run_closing. cbn [snd log iteration].
  destruct (loop_counts self duration_sec start_time script (start self))
    as (ds & di & dv & Hs & Hi & Hv & H1 & H2).
  destruct (start_counts self) as (Hs0 & Hv0 & Hi0).
  destruct (closing_counts self
              (fst (loop self duration_sec start_time script (start self)))
              (iteration
                 (snd (loop self duration_sec start_time script
                            (start self))))) as [Hcs Hcv].
  rewrite sleeps_app, invocations_app, length_app, Hcs, Hcv.
  rewrite Hs0 in Hs. rewrite Hi0 in Hi. rewrite Hv0 in Hv.
  cbn [List.length] in *. lia.
Qed.

(** ** Progress notices *)

Lemma tenth_step (n : Z) :
  0 <= n ->
  n / 10 + (if (n + 1) mod 10 =? 0 then 1 else 0) = (n + 1) / 10.
Proof.
  intros Hn. destruct (Z.eqb_spec ((n + 1) mod 10) 0) as [H | H];
    Z.div_mod_to_equations; lia.
Qed.

Lemma stderr_flushes_progress (n : Z) :
  count_effects is_stderr_flush (progress_of n)
  = if n mod 10 =? 0 then 1 else 0.
Proof. unfold progress_of. now destruct (_ =? 0). Qed.

Lemma stderr_flushes_pause (self : Monitor) (env : Tick) :
  count_effects is_stderr_flush (pause_of self env) = 0.
Proof. unfold pause_of. cbv zeta. now destruct (gt_zero _). Qed.

Lemma tick_progress (self : Monitor) (duration_sec : option Z)
  (start_time : Q) (env : Tick) (st : RunState) :
  0 <= iteration st /\
  count_effects is_stderr_flush (log st) = iteration st / 10 ->
  let st' := snd (tick self duration_sec start_time env st) in
  0 <= iteration st' /\
  count_effects is_stderr_flush (log st') = iteration st' / 10.
Proof.
  intros [Hn Hc]. cbv zeta.
  destruct (tick_cases self duration_sec start_time env st)
    as (status & extra & n & -> & Hcase).
  cbn [snd log iteration]. rewrite count_effects_app, Hc.
  destruct Hcase; try (split; [assumption | cbn; lia]).
  split; [lia |].
  change (Invoke :: ?l) with ([Invoke] ++ l)%list.
  rewrite !count_effects_app, count_effects_rows by reflexivity.
  rewrite stderr_flushes_progress, stderr_flushes_pause.
  rewrite <- (tenth_step _ Hn). cbn. lia.
Qed.

(** X10: a progress notice is given after every tenth sample and at no
    other time: the notices flushed to the side channel are the counter
    divided by ten, rounded down. *)
Theorem progress_every_tenth :
  forall self duration_sec start_time script,
    let st := snd (run self duration_sec start_time script) in
    count_effects is_stderr_flush (log st) = iteration st / 10.
Proof.
  intros self duration_sec start_time script. cbv zeta.
  rewrite run_closing. cbn [snd log iteration].
  assert (Hloop :
            0 <= iteration (snd (loop self duration_sec start_time script
                                      (start self))) /\
            count_effects is_stderr_flush
              (log (snd (loop self duration_sec start_time script
                              (start self))))
            = iteration (snd (loop self duration_sec start_time script
                                   (start self))) / 10).
  { apply (loop_keeps self duration_sec start_time
             (fun st => 0 <= iteration st /\
                        count_effects is_stderr_flush (log st)
                        = iteration st / 10)).
    - intros env st. apply tick_progress.
    - unfold start, _write_csv_header. cbn [log iteration].
      destruct (output_file self) as [f |]; [destruct (is_empty f) |];
        now split. }
  destruct Hloop as [_ Hcount]. rewrite count_effects_app, Hcount.
  destruct (fst (loop self duration_sec start_time script (start self)));
    cbn [closing_of]; destruct (has_output_file self); cbn; lia.
Qed.

(** ** Flushing and closing the sink *)

Lemma pending_rows (acc : list string) (timestamp : string) (data : Sample)
  (ms : list MetricReading) (rest : list Effect) :
  pending_from acc
    (flat_map (row_writes timestamp data) ms ++ Flush :: rest)
  = pending_from [] rest.
Proof.
  revert acc. induction ms as [| m ms IH]; intros acc; [reflexivity |].
  cbn [flat_map row_writes app pending_from]. apply IH.
Qed.

Lemma pending_progress (acc : list string) (n : Z) (rest : list Effect) :
  pending_from acc (progress_of n ++ rest) = pending_from acc rest.
Proof. unfold progress_of. now destruct (_ =? 0). Qed.

Lemma pending_pause (acc : list string) (self : Monitor) (env : Tick) :
  pending_from acc (pause_of self env) = acc.
Proof. unfold pause_of. cbv zeta. now destruct (gt_zero _). Qed.

Lemma tick_pending (self : Monitor) (duration_sec : option Z)
  (start_time : Q) (env : Tick) (st : RunState) :
  pending (log st) = [] ->
  pending (log (snd (tick self duration_sec start_time env st))) = [].
Proof.
  unfold pending. intros Hp.
  destruct (tick_cases self duration_sec start_time env st)
    as (status & extra & n & -> & Hcase).
  cbn [snd log]. rewrite pending_from_app, Hp.
  destruct Hcase; try reflexivity.
  cbn [pending_from app]. rewrite pending_rows.
  now rewrite pending_progress, pending_pause.
Qed.

(** X11: at every tick boundary and at the end of every run, nothing
    written to the sink is left without a flush after it. *)
Theorem nothing_left_unflushed :
  forall self duration_sec start_time script,
    pending (log (snd (run self duration_sec start_time script))) = [].
Proof.
  intros self duration_sec start_time script.
  rewrite run_closing. cbn [snd log]. unfold pending.
  rewrite pending_from_app.
  assert (Hloop : pending (log (snd (loop self duration_sec start_time
                                          script (start self)))) = []).
  { apply (loop_keeps self duration_sec start_time
             (fun st => pending (log st) = [])).
    - intros env st. apply tick_pending.
    - unfold start, _write_csv_header, pending. cbn [log].
      destruct (output_file self) as [f |]; [destruct (is_empty f) |];
        reflexivity. }
  unfold pending in Hloop. rewrite Hloop.
  destruct (fst (loop self duration_sec start_time script (start self)));
    cbn [closing_of]; now destruct (has_output_file self).
Qed.

Lemma closes_progress (n : Z) : count_effects is_close (progress_of n) = 0.
Proof. unfold progress_of. now destruct (_ =? 0). Qed.

Lemma closes_pause (self : Monitor) (env : Tick) :
  count_effects is_close (pause_of self env) = 0.
Proof. unfold pause_of. cbv zeta. now destruct (gt_zero _). Qed.

Lemma tick_never_closes (self : Monitor) (duration_sec : option Z)
  (start_time : Q) (env : Tick) (st : RunState) :
  count_effects is_close (log st) = 0 ->
  count_effects is_close
    (log (snd (tick self duration_sec start_time env st))) = 0.
Proof.
  intros Hc.
  destruct (tick_cases self duration_sec start_time env st)
    as (status & extra & n & -> & Hcase).
  cbn [snd log]. rewrite count_effects_app, Hc.
  destruct Hcase; try reflexivity.
  change (Invoke :: ?l) with ([Invoke] ++ l)%list.
  rewrite !count_effects_app, count_effects_rows by reflexivity.
  now rewrite closes_progress, closes_pause.
Qed.

(** X12: the sink is closed only by the [finally] block: never while the
    loop is going and never when no output file is set; a run with an output
    file that has ended closed it exactly once, as the last thing before the
    closing notice. *)
Theorem sink_closed_once :
  forall self duration_sec start_time script,
    let r := run self duration_sec start_time script in
    (fst r = Running \/ has_output_file self = false ->
     count_effects is_close (log (snd r)) = 0) /\
    (fst r <> Running -> has_output_file self = true ->
     exists before,
       log (snd r)
       = (before ++ [Close; total_notice (iteration (snd r))])%list /\
       count_effects is_close before = 0).
Proof.
  intros self duration_sec start_time script. cbv zeta.
  rewrite run_closing. cbn [fst snd log iteration].
  assert (Hloop : count_effects is_close
                    (log (snd (loop self duration_sec start_time script
                                    (start self)))) = 0).
  { apply (loop_keeps self duration_sec start_time
             (fun st => count_effects is_close (log st) = 0)).
    - intros env st. apply tick_never_closes.
    - unfold start, _write_csv_header. cbn [log].
      destruct (output_file self) as [f |]; [destruct (is_empty f) |];
        reflexivity. }
  split.
  - intros Hcase. rewrite count_effects_app, Hloop.
    destruct Hcase as [-> | Hfile]; [reflexivity |].
    destruct (fst (loop self duration_sec start_time script (start self)));
      cbn [closing_of]; now rewrite ?Hfile.
  - intros Hended Hfile. eexists. split; [| exact Hloop].
    destruct (fst (loop self duration_sec start_time script (start self)));
      [contradiction | ..]; cbn [closing_of]; now rewrite Hfile.
Qed.

Lemma sink_closed_once_witness :
  (count_effects is_close
     (log (snd (run monitor_1s None 0 [tick_at 0 TimeoutExpired]))) = 0) /\
  (exists before,
      log (snd (run monitor_1s None 0 [tick_at 0 FileNotFoundError]))
      = (before
         ++ [Close;
             total_notice
               (iteration
                  (snd (run monitor_1s None 0
                            [tick_at 0 FileNotFoundError])))])%list /\
      count_effects is_close before = 0).
Proof.
  split.
  - apply (sink_closed_once monitor_1s None 0 [tick_at 0 TimeoutExpired]).
    left. reflexivity.
  - apply (sink_closed_once monitor_1s None 0 [tick_at 0 FileNotFoundError]).
    + vm_compute. discriminate.
    + reflexivity.
Defined.

(** ** Sleeping *)

Lemma float_sub_no_nan (x y : double) :
  float_pos (float_sub x y) = true -> x <> S754_nan /\ y <> S754_nan.
Proof.
  destruct x as [sx | sx | | sx mx ex], y as [sy | sy | | sy my ey];
    cbn [float_sub SFsub]; intros H; try discriminate H;
    split; discriminate.
Qed.

Lemma float_not_le (x y : double) :
  x <> S754_nan -> y <> S754_nan ->
  float_le x y = false -> float_lt y x = true.
Proof.
  destruct x as [sx | sx | | sx mx ex], y as [sy | sy | | sy my ey];
    cbn [float_le float_lt]; intros Hx Hy H; try congruence;
    try (now rewrite H);
    try (now destruct sx, sy); try (now destruct sx); now destruct sy.
Qed.

Lemma pause_of_remainder (self : Monitor) (env : Tick) :
  Forall (is_remainder self env) (sleeps (pause_of self env)).
Proof.
  unfold pause_of, sleep_time, max0. cbv zeta.
  set (elapsed := float_sub (tk_end env) (tk_iter_start env)).
  set (rest := float_sub (interval_sec self) elapsed).
  destruct (float_pos rest) eqn:Hrest; cbn [gt_zero].
  2: { change (0 <? 0) with false. constructor. }
  rewrite Hrest. cbn [sleeps]. constructor; [| constructor].
  unfold is_remainder. fold elapsed. fold rest.
  split; [reflexivity |]. split; [exact Hrest |].
  destruct (float_sub_no_nan _ _ Hrest) as [Hx Hy].
  apply float_not_le; try assumption.
  destruct (float_le (interval_sec self) elapsed) eqn:Hle; [| reflexivity].
  apply float_sub_not_positive in Hle. fold rest in Hle. congruence.
Qed.

Lemma tick_sleeps (P : number -> Prop) (self : Monitor)
  (duration_sec : option Z) (start_time : Q) (env : Tick) (st : RunState) :
  Forall P (sleeps (pause_of self env)) ->
  Forall P (sleeps (log st)) ->
  Forall P (sleeps (log (snd (tick self duration_sec start_time env st)))).
Proof.
  intros Hpause Hst.
  destruct (tick_cases self duration_sec start_time env st)
    as (status & extra & n & -> & Hcase).
  cbn [snd log]. rewrite sleeps_app. apply Forall_app. split; [exact Hst |].
  destruct Hcase; try constructor.
  cbn [sleeps]. rewrite !sleeps_app, sleeps_rows, sleeps_progress.
  exact Hpause.
Qed.

Lemma loop_sleeps (P : number -> Prop) (self : Monitor)
  (duration_sec : option Z) (start_time : Q) (script : list Tick) :
  Forall (fun env => Forall P (sleeps (pause_of self env))) script ->
  forall st,
    Forall P (sleeps (log st)) ->
    Forall P (sleeps (log (snd (loop self duration_sec start_time
                                     script st)))).
Proof.
  induction 1 as [| env rest Henv _ IH]; intros st Hst; [exact Hst |].
  rewrite loop_cons.
  pose proof (tick_sleeps P self duration_sec start_time env st Henv Hst)
    as Hstep.
  destruct (fst (tick self duration_sec start_time env st));
    try exact Hstep.
  now apply IH.
Qed.

Lemma run_sleeps (P : number -> Prop) (self : Monitor)
  (duration_sec : option Z) (start_time : Q) (script : list Tick) :
  Forall (fun env => Forall P (sleeps (pause_of self env))) script ->
  Forall P (sleeps (log (snd (run self duration_sec start_time script)))).
Proof.
  intros Hscript. rewrite run_closing. cbn [snd log].
  rewrite sleeps_app.
  destruct (closing_counts self
              (fst (loop self duration_sec start_time script (start self)))
              (iteration (snd (loop self duration_sec start_time script
                                    (start self))))) as [-> _].
  rewrite app_nil_r. apply loop_sleeps; [exact Hscript |].
  destruct (start_counts self) as [-> _]. constructor.
Qed.

(** X13: [time.sleep] is never called with zero, a negative time, a NaN
    or an [int]: in every run each of its calls gets a double above zero,
    the rounded rest of the interval after a tick of the script that took
    less than the interval. *)
Theorem sleeps_are_remainders :
  forall self duration_sec start_time script,
    Forall (fun n => exists env, In env script /\ is_remainder self env n)
           (sleeps (log (snd (run self duration_sec start_time script)))).
Proof.
  intros self duration_sec start_time script.
  apply run_sleeps. apply Forall_forall. intros env Hin.
  eapply Forall_impl; [| apply pause_of_remainder].
  intros n Hn. now exists env.
Qed.

(** ** Edge cases of a tick *)

Lemma writes_progress (n : Z) : writes (progress_of n) = [].
Proof. unfold progress_of. now destruct (_ =? 0). Qed.

Lemma writes_pause (self : Monitor) (env : Tick) :
  writes (pause_of self env) = [].
Proof. unfold pause_of. cbv zeta. now destruct (gt_zero _). Qed.

Lemma flushes_progress (n : Z) : flushes (progress_of n) = 0.
Proof. unfold progress_of. now destruct (_ =? 0). Qed.

Lemma flushes_pause (self : Monitor) (env : Tick) :
  flushes (pause_of self env) = 0.
Proof. unfold pause_of. cbv zeta. now destruct (gt_zero _). Qed.

(** X15: a probe that exits with zero and whose report gives no reading
    (no table, or no healthy row) writes no row, yet the sink is flushed and
    the tick is counted as a sample; the loop goes on, unless the sleep that
    ends the tick raises. *)
Theorem empty_sample_counted :
  forall self duration_sec start_time env st stdout stderr data,
    tk_running env = true ->
    limit_reached duration_sec start_time (tk_now env) = false ->
    tk_probe env = Completed 0 stdout stderr ->
    _parse_output stdout = Ok data ->
    metrics data = [] ->
    let r := tick self duration_sec start_time env st in
    fst r = pause_status self env /\
    (tk_sleep env = Slept -> fst r = Running) /\
    writes (log (snd r)) = writes (log st) /\
    flushes (log (snd r)) = flushes (log st) + 1 /\
    iteration (snd r) = iteration st + 1.
Proof.
  intros self duration_sec start_time env st stdout stderr data
         Hrun Hlimit Hprobe Hdata Hempty. cbv zeta.
  unfold tick. rewrite Hrun, Hlimit, Hprobe. cbn [negb Z.eqb].
  destruct (record_sample_as_log env stdout
              (mkRunState (log st ++ [Invoke]) (iteration st)))
    as (data' & Hdata' & ->).
  assert (data' = data) by congruence. subst data'.
  rewrite pause_as_log, Hempty. cbn [fst snd log iteration flat_map].
  rewrite !writes_app, !flushes_app.
  rewrite writes_progress, writes_pause, flushes_progress, flushes_pause.
  cbn [writes flushes app]. rewrite !app_nil_r.
  split; [reflexivity |]. split; [| repeat split; lia].
  intros Hslept. unfold pause_status. rewrite Hslept.
  now destruct (gt_zero _).
Qed.

Lemma empty_sample_counted_witness :
  let r := tick monitor_1s None 0 (tick_at 0 (Completed 0 "" ""))
                (start monitor_1s) in
  fst r = Running /\
  writes (log (snd r)) = writes (log (start monitor_1s)) /\
  flushes (log (snd r)) = flushes (log (start monitor_1s)) + 1 /\
  iteration (snd r) = iteration (start monitor_1s) + 1.
Proof.
  destruct (empty_sample_counted monitor_1s None 0
              (tick_at 0 (Completed 0 "" "")) (start monitor_1s) "" ""
              (mkSample "0" "Unknown" "" "" [])
              eq_refl eq_refl eq_refl eq_refl eq_refl)
    as (_ & Hgoes & Hrest).
  split; [apply Hgoes; reflexivity | exact Hrest].
Defined.

(** X16: with a negative duration the run ends by the limit at its first
    tick, before the probe is started once, provided the flag is on and the
    clock is not behind the start time: only the header reaches the sink. *)
Theorem negative_duration_stops_at_once :
  forall self d start_time env rest,
    d < 0 ->
    tk_running env = true ->
    (start_time <= tk_now env)%Q ->
    let r := run self (Some d) start_time (env :: rest) in
    fst r = LimitReached /\
    invocations (log (snd r)) = 0 /\
    writes (log (snd r)) = [header_fst; header_snd] /\
    iteration (snd r) = 0.
Proof.
  intros self d start_time env rest Hd Hrun Hclock. cbv zeta.
  assert (Hlimit : limit_reached (Some d) start_time (tk_now env) = true).
  { apply limit_reached_iff; [lia |].
    rewrite Zlt_Qlt in Hd. change (inject_Z 0) with 0%Q in Hd. lra. }
  assert (Hloop : loop self (Some d) start_time (env :: rest) (start self)
                  = (LimitReached, say (start self) (limit_notice d))).
  { rewrite loop_cons. unfold tick. now rewrite Hrun, Hlimit. }
  rewrite run_closing, Hloop. cbn [fst snd log iteration say closing_of].
  destruct (start_counts self) as (_ & Hv0 & Hi0).
  destruct (start_log self) as (Hw0 & _).
  rewrite <- !app_assoc, !invocations_app, !writes_app, Hv0, Hw0, Hi0.
  destruct (has_output_file self); now repeat split.
Qed.

Lemma negative_duration_stops_at_once_witness :
  let r := run monitor_1s (Some (-5)) 0
               [tick_at 0 (Completed 0 report_full "")] in
  fst r = LimitReached /\
  invocations (log (snd r)) = 0 /\
  writes (log (snd r)) = [header_fst; header_snd] /\
  iteration (snd r) = 0.
Proof.
  apply (negative_duration_stops_at_once monitor_1s (-5) 0
           (tick_at 0 (Completed 0 report_full "")) []).
  - reflexivity.
  - reflexivity.
  - vm_compute. discriminate.
Defined.

(** ** A sleep that raises *)





(** * [main] *)




